(** * smart-th-sensor: the TP-Link Kasa codec, responder and listener

    A shallow embedding of [main/tplink_kasa.c] and of the receive loop of
    [main/wifi.c], with the properties of the protocol description stated
    and proved (or refuted) against it.

    Conventions.
    - A C [char] is a [Z] in [0, 256); a [char] array is a [list Z] whose
      length is the number of cells the pointer may access.
    - Every load and store is bounds-checked: a function returns [None] as
      soon as it touches a cell outside one of its arrays.  The one heap
      block of the code carries a red-zone cell (see [malloc]), so that the
      responder stays defined when a store lands just past the block.
      Where a normal result of the responder is stated, it is stated for
      requests whose decoding stays inside the block, together with the
      decoder's result on an array of exactly the size allocated.
    - [int] and [uint32_t] are [Z] with the wrap-around written out.
    - cJSON's parser and printer are parameters; [JSONText] gives one
      concrete pair for running the code on actual bytes. *)

From Stdlib Require Import ZArith Lia Ascii String.
From stdpp Require Import base option list strings pretty.

Local Open Scope Z_scope.

(** ** Machine integers *)

Definition uint32 (x : Z) : Z := x mod 2 ^ 32.

Definition int32 (x : Z) : Z := (x + 2 ^ 31) mod 2 ^ 32 - 2 ^ 31.

Definition char (x : Z) : Z := x mod 256.

Definition is_char (x : Z) : Prop := 0 <= x < 256.

(** ** Arrays of [char] *)

Abbreviation buffer := (list Z).

Definition load (b : buffer) (i : Z) : option Z :=
  if 0 <=? i then b !! Z.to_nat i else None.

Definition store (b : buffer) (i v : Z) : option buffer :=
  if (0 <=? i) && (i <? Z.of_nat (length b))
  then Some (<[Z.to_nat i := char v]> b)
  else None.

(** The C string that starts at cell 0: the cells before the first NUL.
    [None] when the array holds no NUL, so that a reader would run off it. *)
Fixpoint c_str (b : buffer) : option (list Z) :=
  match b with
  | [] => None
  | c :: b' => if c =? 0 then Some [] else cons c <$> c_str b'
  end.

(** [strlen] on the content of a NUL-terminated string given without its
    terminator: a NUL inside the content ends the string early. *)
Fixpoint strlen (s : list Z) : Z :=
  match s with
  | [] => 0
  | c :: s' => if c =? 0 then 0 else 1 + strlen s'
  end.

(** ** tplink_kasa.c: the codec *)

(** [sizeof(union payload_header)] *)
Definition sizeof_payload_header : Z := 4.

Definition cipher_key : Z := 171.

(** [header.payload_length] after [header.bytes[3..0]] were set to
    [b0 b1 b2 b3] on the little-endian target: [b0] is the most significant
    byte. *)
Definition payload_length_of_bytes (b0 b1 b2 b3 : Z) : Z :=
  Z.lor (Z.shiftl (char b0) 24)
    (Z.lor (Z.shiftl (char b1) 16) (Z.lor (Z.shiftl (char b2) 8) (char b3))).

(** [header.bytes[k]] of a [payload_length]. *)
Definition header_byte (payload_length : Z) (k : Z) : Z :=
  Z.land (Z.shiftr payload_length (8 * k)) 255.

(** The body of the decoding loop, [n] iterations from index [i]. *)
Fixpoint decrypt_loop (encrypted_payload : buffer) (header_len : Z)
    (n : nat) (i : Z) (key : Z) (decrypted_payload : buffer) : option buffer :=
  match n with
  | O => Some decrypted_payload
  | S n' =>
      c ← load encrypted_payload (i + header_len);
      out ← store decrypted_payload i (Z.lxor c key);
      decrypt_loop encrypted_payload header_len n' (i + 1) c out
  end.

(** The header offset and the payload length the decoder settles on
    (tplink_kasa.c, lines 126-139). *)
Definition decrypt_window (b0 b1 b2 b3 : Z) (encrypted_len : Z) : Z * Z :=
  let payload_length := payload_length_of_bytes b0 b1 b2 b3 in
  let header_len := sizeof_payload_header in
  if uint32 (encrypted_len - header_len) <? payload_length
  then (0, uint32 encrypted_len)
  else (header_len, payload_length).

Definition tplink_kasa_decrypt (encrypted_payload : buffer) (encrypted_len : Z)
    (decrypted_payload : buffer) (include_header : bool) : option (Z * buffer) :=
  if uint32 encrypted_len <=? sizeof_payload_header then
    out ← store decrypted_payload 0 0;
    Some (0, out)
  else
    let key := cipher_key in
    b0 ← load encrypted_payload 0;
    b1 ← load encrypted_payload 1;
    b2 ← load encrypted_payload 2;
    b3 ← load encrypted_payload 3;
    let '(header_len, payload_length) := decrypt_window b0 b1 b2 b3 encrypted_len in
    out ← decrypt_loop encrypted_payload header_len (Z.to_nat payload_length)
            0 key decrypted_payload;
    out ← store out payload_length 0;
    Some (int32 payload_length, out).

(** The body of the encoding loop, [n] iterations from index [i]. *)
Fixpoint encrypt_loop (payload : list Z) (header_len : Z) (n : nat) (i : Z)
    (key : Z) (encrypted_payload : buffer) : option buffer :=
  match n with
  | O => Some encrypted_payload
  | S n' =>
      p ← load payload i;
      let c := char (Z.lxor p key) in
      out ← store encrypted_payload (i + header_len) c;
      encrypt_loop payload header_len n' (i + 1) c out
  end.

(** [tplink_kasa_encrypt] from the point where [payload] holds the
    serialized document. *)
Definition encrypt_payload (payload : list Z) (encrypted_payload : buffer)
    (include_header : bool) : option (Z * buffer) :=
  let key := cipher_key in
  let payload_length := uint32 (strlen payload) in
  out ← store encrypted_payload 0 (header_byte payload_length 3);
  out ← store out 1 (header_byte payload_length 2);
  out ← store out 2 (header_byte payload_length 1);
  out ← store out 3 (header_byte payload_length 0);
  let header_len := if include_header then sizeof_payload_header else 0 in
  out ← encrypt_loop payload header_len (Z.to_nat (strlen payload)) 0 key out;
  let encrypted_len := int32 (strlen payload + header_len) in
  Some (encrypted_len, out).

(** ** The JSON documents of cJSON

    cJSON itself is a library outside the repository.  A document is a tree;
    a [cJSON *] into a document is the path of member positions from its
    root, [None] for [NULL].  The parser and the printer stay parameters of
    the responder below. *)

#[local] Set Warnings "-register-all".

Inductive cJSON : Type :=
  | cJSON_NULL
  | cJSON_False
  | cJSON_True
  | cJSON_Number (n : Z)
  | cJSON_String (s : string)
  | cJSON_Array (items : list cJSON)
  | cJSON_Object (members : list (string * cJSON)).

Definition cJSON_ptr := option (list nat).

Definition members_of (j : cJSON) : list (string * cJSON) :=
  match j with
  | cJSON_Object ms => ms
  | _ => []
  end.

Fixpoint node_at (root : cJSON) (p : list nat) : option cJSON :=
  match p with
  | [] => Some root
  | i :: p' => m ← members_of root !! i; node_at m.2 p'
  end.

Definition tolower (c : ascii) : ascii :=
  let n := nat_of_ascii c in
  if (65 <=? n)%nat && (n <=? 90)%nat then ascii_of_nat (n + 32) else c.

Fixpoint lowercase (s : string) : string :=
  match s with
  | EmptyString => EmptyString
  | String c s' => String (tolower c) (lowercase s')
  end.

(** cJSON compares member names without regard to case here. *)
Definition name_matches (name : string) (m : string * cJSON) : bool :=
  bool_decide (lowercase m.1 = lowercase name).

Fixpoint first_match (name : string) (ms : list (string * cJSON)) (i : nat)
    : option nat :=
  match ms with
  | [] => None
  | m :: ms' => if name_matches name m then Some i else first_match name ms' (S i)
  end.

Definition cJSON_GetObjectItem (root : cJSON) (object : cJSON_ptr)
    (name : string) : cJSON_ptr :=
  p ← object;
  node ← node_at root p;
  i ← first_match name (members_of node) 0;
  Some (p ++ [i]).

Definition cJSON_HasObjectItem (root : cJSON) (object : cJSON_ptr)
    (name : string) : bool :=
  match cJSON_GetObjectItem root object name with
  | Some _ => true
  | None => false
  end.

Fixpoint update_at (p : list nat) (f : cJSON → cJSON) (j : cJSON) : cJSON :=
  match p with
  | [] => f j
  | i :: p' =>
      match j with
      | cJSON_Object ms =>
          cJSON_Object (alter (λ m, (m.1, update_at p' f m.2)) i ms)
      | _ => j
      end
  end.

Definition append_item (name : string) (item : cJSON) (j : cJSON) : cJSON :=
  match j with
  | cJSON_Object ms => cJSON_Object (ms ++ [(name, item)])
  | cJSON_Array items => cJSON_Array (items ++ [item])
  | _ => j
  end.

(** Adding to [NULL] does nothing. *)
Definition cJSON_AddItemToObject (root : cJSON) (object : cJSON_ptr)
    (name : string) (item : cJSON) : cJSON :=
  match object with
  | None => root
  | Some p => update_at p (append_item name item) root
  end.

Definition cJSON_CreateNumber (n : Z) : cJSON := cJSON_Number n.

Arguments cJSON_GetObjectItem : simpl never.
Arguments cJSON_HasObjectItem : simpl never.
Arguments cJSON_AddItemToObject : simpl never.

(** ** Text as bytes *)

Definition bytes_of_string (s : string) : list Z :=
  (λ c, Z.of_nat (nat_of_ascii c)) <$> list_ascii_of_string s.

Definition double_quote : ascii := ascii_of_nat 34.

(** The C literal is written here with an apostrophe wherever the source
    has an escaped double quote. *)
Fixpoint c_literal (s : string) : string :=
  match s with
  | EmptyString => EmptyString
  | String c s' =>
      String (if bool_decide (c = "'"%char) then double_quote else c) (c_literal s')
  end.

Definition tplink_kasa_sysinfo : list Z :=
  bytes_of_string (c_literal (String.concat "" [
    "{ ";
    "    'system': ";
    "    { ";
    "        'get_sysinfo': ";
    "        { ";
    "        'sw_ver':'1.0.0 Build 000001 Rel.000001', ";
    "        'hw_ver':'1.0', ";
    "        'model':'KL130B(UN)', ";
    "        'deviceId':'80121C1874CF2DEA94DF3127F8DDF7D71DD7112F', ";
    "        'oemId':'E45F76AD3AF13E60B58D6F68739CD7E5', ";
    "        'hwId':'1E97141B9F0E939BD8F9679F0B6167C8', ";
    "        'rssi':-71, ";
    "        'latitude_i':0, ";
    "        'longitude_i':0, ";
    "        'alias':'Back Light', ";
    "        'status':'new', ";
    "        'description':'WiFi BLE Smart Bulb Bridge', ";
    "        'mic_type':'IOT.SMARTBULB', ";
    "        'mic_mac':'C0C9E3AD7C1D', ";
    "        'dev_state':'normal', ";
    "        'is_factory':false, ";
    "        'disco_ver':'1.0', ";
    "        'ctrl_protocols':  ";
    "        { ";
    "            'name':'Linkie', ";
    "            'version':'1.0' ";
    "        }, ";
    "        'active_mode':'none', ";
    "        'is_dimmable':1, ";
    "        'is_color':1, ";
    "        'is_variable_color_temp':1, ";
    "        'light_state': ";
    "        { ";
    "            'on_off':0 ";
    "        }, ";
    "        'err_code':0 ";
    "        } ";
    "    } ";
    "}"
  ])).

(** The document that the text [tplink_kasa_sysinfo] denotes. *)
Definition sysinfo_document : cJSON :=
  cJSON_Object [
    ("system", cJSON_Object [
      ("get_sysinfo", cJSON_Object [
        ("sw_ver", cJSON_String "1.0.0 Build 000001 Rel.000001");
        ("hw_ver", cJSON_String "1.0");
        ("model", cJSON_String "KL130B(UN)");
        ("deviceId", cJSON_String "80121C1874CF2DEA94DF3127F8DDF7D71DD7112F");
        ("oemId", cJSON_String "E45F76AD3AF13E60B58D6F68739CD7E5");
        ("hwId", cJSON_String "1E97141B9F0E939BD8F9679F0B6167C8");
        ("rssi", cJSON_Number (-71));
        ("latitude_i", cJSON_Number 0);
        ("longitude_i", cJSON_Number 0);
        ("alias", cJSON_String "Back Light");
        ("status", cJSON_String "new");
        ("description", cJSON_String "WiFi BLE Smart Bulb Bridge");
        ("mic_type", cJSON_String "IOT.SMARTBULB");
        ("mic_mac", cJSON_String "C0C9E3AD7C1D");
        ("dev_state", cJSON_String "normal");
        ("is_factory", cJSON_False);
        ("disco_ver", cJSON_String "1.0");
        ("ctrl_protocols", cJSON_Object [
          ("name", cJSON_String "Linkie");
          ("version", cJSON_String "1.0")]);
        ("active_mode", cJSON_String "none");
        ("is_dimmable", cJSON_Number 1);
        ("is_color", cJSON_Number 1);
        ("is_variable_color_temp", cJSON_Number 1);
        ("light_state", cJSON_Object [("on_off", cJSON_Number 0)]);
        ("err_code", cJSON_Number 0)])])].

(** ** The heap block of [tplink_kasa_process_buffer]

    [malloc n] yields [n] cells followed by one red-zone cell that holds a
    value no [char] store can produce.  A store just past the block is then
    visible in the block instead of ending the model; any store further out
    still yields [None].

    The source asks for [buffer_len] bytes: the red-zone cell is no part of
    the block, it is the first byte behind it, and a request that overwrites
    it has left the block.  The allocation is taken to succeed; the source
    does not test the pointer. *)

Definition red_zone : Z := -1.

Definition malloc (n : Z) : buffer := replicate (Z.to_nat n) 0 ++ [red_zone].

Definition red_zone_intact (n : Z) (block : buffer) : bool :=
  bool_decide (block !! Z.to_nat n = Some red_zone).

(** ** tplink_kasa.c: the responder *)

Record reply := {
  reply_len : Z;          (* the value returned *)
  raw_after : buffer;     (* [raw_buffer] on return *)
  json_block : buffer     (* the block of [json_string] when it was freed *)
}.

Section Responder.

Variable cJSON_Parse : list Z → option cJSON.
Variable cJSON_PrintUnformatted : cJSON → list Z.

Definition tplink_kasa_encrypt (json : cJSON) (encrypted_payload : buffer)
    (include_header : bool) : option (Z * buffer) :=
  let payload := cJSON_PrintUnformatted json in
  encrypt_payload payload encrypted_payload include_header.

(** The document that is serialized for a system-information request. *)
Definition sysinfo_response (response_template : cJSON) : cJSON :=
  let temperature := 0 in
  let humidity := 0 in
  let resp_system := cJSON_GetObjectItem response_template (Some []) "system" in
  let resp_sysinfo := cJSON_GetObjectItem response_template resp_system "get_sysinfo" in
  let resp_state := cJSON_GetObjectItem response_template resp_sysinfo "state" in
  let t1 := cJSON_AddItemToObject response_template resp_state
              "temperature" (cJSON_CreateNumber temperature) in
  let t2 := cJSON_AddItemToObject t1 resp_state
              "humidity" (cJSON_CreateNumber humidity) in
  cJSON_AddItemToObject t2 resp_state "err_code" (cJSON_CreateNumber 0).

(** The text handed to [cJSON_Parse]: the received bytes decoded into a
    fresh block of [buffer_len] bytes. *)
Definition decode_request (raw_buffer : buffer) (buffer_len : Z)
    (include_header : bool) : option (buffer * buffer) :=
  let json_string := malloc buffer_len in
  raw_buffer ← store raw_buffer buffer_len 0;
  r ← tplink_kasa_decrypt raw_buffer buffer_len json_string include_header;
  Some (raw_buffer, r.2).

Definition tplink_kasa_process_buffer (raw_buffer : buffer) (buffer_len : Z)
    (include_header : bool) : option reply :=
  let encrypted_len := 0 in
  d ← decode_request raw_buffer buffer_len include_header;
  let raw_buffer := d.1 in
  let json_string := d.2 in
  text ← c_str json_string;
  match cJSON_Parse text with
  | None => Some {| reply_len := 0; raw_after := raw_buffer; json_block := json_string |}
  | Some rx_json_message =>
      let attr_system := cJSON_GetObjectItem rx_json_message (Some []) "system" in
      if cJSON_HasObjectItem rx_json_message attr_system "get_sysinfo" then
        match cJSON_Parse tplink_kasa_sysinfo with
        | None =>
            Some {| reply_len := 0; raw_after := raw_buffer; json_block := json_string |}
        | Some response_template =>
            e ← tplink_kasa_encrypt (sysinfo_response response_template)
                   raw_buffer include_header;
            Some {| reply_len := e.1; raw_after := e.2; json_block := json_string |}
        end
      else
        Some {| reply_len := encrypted_len; raw_after := raw_buffer;
                json_block := json_string |}
  end.

End Responder.

(** ** A reference JSON reader and printer

    One concrete choice for the two library parameters of the responder,
    covering objects, arrays, integers, strings without escapes and the
    three literals.  It serves to run the responder on actual bytes. *)

Module JSONText.

Fixpoint skip_space (s : list Z) : list Z :=
  match s with
  | c :: s' => if c <=? 32 then skip_space s' else s
  | [] => []
  end.

Fixpoint read_string (s : list Z) (acc : list ascii) : option (string * list Z) :=
  match s with
  | [] => None
  | c :: s' =>
      if c =? 34 then Some (string_of_list_ascii (reverse acc), s')
      else if c =? 92 then None
      else read_string s' (ascii_of_nat (Z.to_nat c) :: acc)
  end.

Fixpoint read_digits (s : list Z) (acc : Z) : Z * list Z :=
  match s with
  | c :: s' =>
      if (48 <=? c) && (c <=? 57) then read_digits s' (10 * acc + (c - 48))
      else (acc, s)
  | [] => (acc, [])
  end.

Definition is_digit (c : Z) : bool := (48 <=? c) && (c <=? 57).

Definition read_number (s : list Z) : option (cJSON * list Z) :=
  match s with
  | 45 :: c :: s' =>
      if is_digit c then
        let r := read_digits (c :: s') 0 in Some (cJSON_Number (- r.1), r.2)
      else None
  | c :: s' =>
      if is_digit c then
        let r := read_digits (c :: s') 0 in Some (cJSON_Number r.1, r.2)
      else None
  | [] => None
  end.

Definition read_word (w : string) (j : cJSON) (s : list Z) : option (cJSON * list Z) :=
  let bs := bytes_of_string w in
  if bool_decide (take (length bs) s = bs) then Some (j, drop (length bs) s) else None.

Fixpoint read_value (fuel : nat) (s : list Z) : option (cJSON * list Z) :=
  match fuel with
  | O => None
  | S fuel' =>
      match skip_space s with
      | 123 :: s1 =>
          match skip_space s1 with
          | 125 :: s2 => Some (cJSON_Object [], s2)
          | _ => read_members fuel' s1 []
          end
      | 91 :: s1 =>
          match skip_space s1 with
          | 93 :: s2 => Some (cJSON_Array [], s2)
          | _ => read_items fuel' s1 []
          end
      | 34 :: s1 => r ← read_string s1 []; Some (cJSON_String r.1, r.2)
      | 116 :: s1 => read_word "true" cJSON_True (116 :: s1)
      | 102 :: s1 => read_word "false" cJSON_False (102 :: s1)
      | 110 :: s1 => read_word "null" cJSON_NULL (110 :: s1)
      | s1 => read_number s1
      end
  end
with read_members (fuel : nat) (s : list Z) (acc : list (string * cJSON))
    : option (cJSON * list Z) :=
  match fuel with
  | O => None
  | S fuel' =>
      match skip_space s with
      | 34 :: s1 =>
          k ← read_string s1 [];
          match skip_space k.2 with
          | 58 :: s2 =>
              v ← read_value fuel' s2;
              match skip_space v.2 with
              | 44 :: s3 => read_members fuel' s3 ((k.1, v.1) :: acc)
              | 125 :: s3 => Some (cJSON_Object (reverse ((k.1, v.1) :: acc)), s3)
              | _ => None
              end
          | _ => None
          end
      | _ => None
      end
  end
with read_items (fuel : nat) (s : list Z) (acc : list cJSON)
    : option (cJSON * list Z) :=
  match fuel with
  | O => None
  | S fuel' =>
      v ← read_value fuel' s;
      match skip_space v.2 with
      | 44 :: s3 => read_items fuel' s3 (v.1 :: acc)
      | 93 :: s3 => Some (cJSON_Array (reverse (v.1 :: acc)), s3)
      | _ => None
      end
  end.

Definition parse (s : list Z) : option cJSON :=
  fst <$> read_value (S (length s)) s.

Definition quoted (s : string) : string :=
  String double_quote (s +:+ String double_quote EmptyString).

Fixpoint print_value (j : cJSON) : string :=
  match j with
  | cJSON_NULL => "null"
  | cJSON_False => "false"
  | cJSON_True => "true"
  | cJSON_Number n => pretty n
  | cJSON_String s => quoted s
  | cJSON_Array items =>
      "[" +:+ String.concat "," (List.map print_value items) +:+ "]"
  | cJSON_Object ms =>
      "{" +:+ String.concat ","
                (List.map (λ m, quoted (fst m) +:+ ":" +:+ print_value (snd m)) ms)
          +:+ "}"
  end.

Definition print (j : cJSON) : list Z := bytes_of_string (print_value j).

End JSONText.

(** ** wifi.c: one pass of the receive loop of [server_task] *)

Inductive socket_type := SOCK_STREAM | SOCK_DGRAM.

(** What a receive call finds. *)
Inductive incoming :=
  | Incoming_error
  | Incoming (data : list Z).

(** The answers of the network stack to the calls of one pass. *)
Record answers := {
  on_recvfrom : incoming;
  on_accept : Z;
  on_recv : incoming;
  on_sendto : Z;
  on_send : list Z
}.

Inductive event :=
  | Ev_recvfrom (rx_len : Z)
  | Ev_accept (connection : Z)
  | Ev_setsockopt (connection : Z)
  | Ev_recv (connection : Z) (rx_len : Z)
  | Ev_delay
  | Ev_process (reply_len : Z)
  | Ev_sendto (len : Z)
  | Ev_send (connection : Z) (offset : Z) (len : Z)
  | Ev_shutdown (connection : Z)
  | Ev_close (connection : Z).

(** [recv]/[recvfrom] into [raw_buffer] with room for [room] bytes. *)
Definition receive (raw_buffer : buffer) (room : Z) (x : incoming) : Z * buffer :=
  match x with
  | Incoming_error => (-1, raw_buffer)
  | Incoming data =>
      let d := take (Z.to_nat room) data in
      (Z.of_nat (length d), d ++ drop (length d) raw_buffer)
  end.

(** The write loop; [None] while the loop has not left with the answers
    given. *)
Fixpoint send_all (connection reply_len to_write : Z) (written : list Z)
    : option (list event) :=
  if to_write <=? 0 then Some []
  else
    match written with
    | [] => None
    | w :: written' =>
        let e := Ev_send connection (reply_len - to_write) to_write in
        if w <? 0 then Some [e]
        else cons e <$> send_all connection reply_len (to_write - w) written'
    end.

Section Listener.

Variable cJSON_Parse : list Z → option cJSON.
Variable cJSON_PrintUnformatted : cJSON → list Z.

Definition buffer_len : Z := 2000.

(** From the reply of [tplink_kasa_process_buffer] to the end of the
    loop body. *)
Definition respond (is_tcp_server is_udp_server : bool) (connection rx_len : Z)
    (raw_buffer : buffer) (a : answers) (before : list event)
    : option (list event * buffer) :=
  r ← tplink_kasa_process_buffer cJSON_Parse cJSON_PrintUnformatted
         raw_buffer rx_len is_tcp_server;
  let reply_len := reply_len r in
  let sent_udp := if is_udp_server then [Ev_sendto reply_len] else [] in
  if is_tcp_server then
    sent ← send_all connection reply_len reply_len (on_send a);
    Some (before ++ [Ev_process reply_len] ++ sent_udp ++ sent
            ++ [Ev_shutdown connection; Ev_close connection], raw_after r)
  else
    Some (before ++ [Ev_process reply_len] ++ sent_udp, raw_after r).

(** One pass through the body of [while (server_running)]. *)
Definition server_pass (kind : socket_type) (raw_buffer : buffer) (a : answers)
    : option (list event * buffer) :=
  let is_tcp_server := match kind with SOCK_STREAM => true | _ => false end in
  let is_udp_server := match kind with SOCK_DGRAM => true | _ => false end in
  let rx_len := 0 in
  let connection := 0 in
  if is_udp_server then
    let r := receive raw_buffer (buffer_len - 1) (on_recvfrom a) in
    let rx_len := r.1 in
    if rx_len <? 0 then Some ([Ev_recvfrom rx_len; Ev_delay], r.2)
    else respond is_tcp_server is_udp_server connection rx_len r.2 a
           [Ev_recvfrom rx_len]
  else if is_tcp_server then
    let connection := on_accept a in
    if connection <? 0 then Some ([Ev_accept connection; Ev_delay], raw_buffer)
    else
      let r := receive raw_buffer (buffer_len - 1) (on_recv a) in
      let rx_len := r.1 in
      let before := [Ev_accept connection; Ev_setsockopt connection;
                     Ev_setsockopt connection; Ev_setsockopt connection;
                     Ev_setsockopt connection; Ev_recv connection rx_len] in
      if rx_len <? 0 then Some (before, r.2)
      else if rx_len =? 0 then Some (before, r.2)
      else respond is_tcp_server is_udp_server connection rx_len r.2 a before
  else
    respond is_tcp_server is_udp_server connection rx_len raw_buffer a [].

(** The passes of the loop, one per element of [script]. *)
Fixpoint server_loop (kind : socket_type) (raw_buffer : buffer)
    (script : list answers) : option (list event) :=
  match script with
  | [] => Some []
  | a :: script' =>
      r ← server_pass kind raw_buffer a;
      rest ← server_loop kind r.2 script';
      Some (r.1 ++ rest)
  end.

End Listener.

(** The connections accepted and not yet closed at the end of a trace. *)
Fixpoint open_connections (trace : list event) (open : list Z) : list Z :=
  match trace with
  | [] => open
  | Ev_accept c :: trace' =>
      open_connections trace' (if c <? 0 then open else open ++ [c])
  | Ev_close c :: trace' =>
      open_connections trace' (filter (λ x, x ≠ c) open)
  | _ :: trace' => open_connections trace' open
  end.

(** ** The cipher in the words of the protocol description

    The key starts at a seed; each plaintext byte is the ciphertext byte XOR
    the key, and the key becomes the ciphertext byte just consumed
    ([decode]); each ciphertext byte is the plaintext byte XOR the key, and
    the key becomes the ciphertext byte just produced ([encode]). *)

Module Autokey.

Fixpoint decode (key : Z) (ciphertext : list Z) : list Z :=
  match ciphertext with
  | [] => []
  | c :: rest => Z.lxor c key :: decode c rest
  end.

Fixpoint encode (key : Z) (plaintext : list Z) : list Z :=
  match plaintext with
  | [] => []
  | p :: rest => let c := Z.lxor p key in c :: encode c rest
  end.

End Autokey.

(** The four header bytes in wire order. *)
Definition header_bytes (payload_length : Z) : list Z :=
  [header_byte payload_length 3; header_byte payload_length 2;
   header_byte payload_length 1; header_byte payload_length 0].

(** What a reader of the C string sees of [plain] once a NUL follows it. *)
Definition text_of (plain : list Z) : list Z := take (Z.to_nat (strlen plain)) plain.

(** The content of a C string: bytes, none of them NUL. *)
Definition is_text (s : list Z) : Prop := Forall (λ c, 0 < c < 256) s.

(** The system-information request of the protocol, as plain text. *)
Definition get_sysinfo_request : list Z :=
  bytes_of_string (c_literal "{'system':{'get_sysinfo':{}}}").

(** The key in force at position [i]: the seed at the first position, the
    previous ciphertext byte afterwards. *)
Definition key_at (seed : Z) (ciphertext : list Z) (i : nat) : Z :=
  match i with
  | O => seed
  | S j => ciphertext !!! j
  end.

(** The 2000-byte buffer of the stream listener after it received the
    system-information request, framed with the header. *)
Definition stream_request_buffer : list Z :=
  default [] (snd <$> encrypt_payload get_sysinfo_request (replicate 2000 0) true).

(** ** wifi.c: [server_task] from its first line to its last *)

(** The answers to the calls that set the socket up. *)
Record setup := {
  on_socket : Z;
  on_bind : Z;
  on_listen : Z
}.

Inductive task_event :=
  | Task_malloc
  | Task_socket (my_sock : Z)
  | Task_setsockopt (my_sock : Z)
  | Task_fcntl (my_sock : Z)
  | Task_bind (my_sock : Z)
  | Task_listen (my_sock : Z)
  | Task_loop (e : event)
  | Task_free
  | Task_close (my_sock : Z)
  | Task_delete.

Section Task.

Variable cJSON_Parse : list Z → option cJSON.
Variable cJSON_PrintUnformatted : cJSON → list Z.

(** [raw_buffer] is the content of the block that [malloc] returned; the
    loop makes one pass per element of [script] and then finds
    [server_running] cleared. *)
Definition server_task (kind : socket_type) (raw_buffer : buffer) (s : setup)
    (script : list answers) : option (list task_event) :=
  let is_tcp_server := match kind with SOCK_STREAM => true | _ => false end in
  let is_udp_server := match kind with SOCK_DGRAM => true | _ => false end in
  let my_sock := on_socket s in
  if my_sock <? 0 then Some [Task_malloc; Task_socket my_sock]
  else
    let clean_up := [Task_free; Task_close my_sock; Task_delete] in
    let opened :=
      [Task_malloc; Task_socket my_sock; Task_setsockopt my_sock]
      ++ (if is_udp_server then [Task_setsockopt my_sock] else [])
      ++ (if is_tcp_server then [Task_fcntl my_sock; Task_fcntl my_sock] else [])
      ++ [Task_bind my_sock] in
    if negb (on_bind s =? 0) then Some (opened ++ clean_up)
    else if is_tcp_server && negb (on_listen s =? 0)
    then Some (opened ++ [Task_listen my_sock] ++ clean_up)
    else
      let listening := if is_tcp_server then [Task_listen my_sock] else [] in
      trace ← server_loop cJSON_Parse cJSON_PrintUnformatted kind raw_buffer script;
      Some (opened ++ listening ++ (Task_loop <$> trace) ++ clean_up).

End Task.

(** The length that the first four cells of a buffer declare. *)
Definition declared_length (enc : list Z) : Z :=
  match enc with
  | b0 :: b1 :: b2 :: b3 :: _ => payload_length_of_bytes b0 b1 b2 b3
  | _ => 0
  end.

(** The bytes that the first [k] calls of [send] reported as written. *)
Definition written_before (written : list Z) (k : nat) : Z :=
  foldr Z.add 0 (take k written).

(** A pass of the stream listener on a peer that connects as [connection]
    and sends nothing. *)
Definition silent_peer (connection : Z) : answers :=
  {| on_recvfrom := Incoming_error; on_accept := connection;
     on_recv := Incoming []; on_sendto := 0; on_send := [] |}.

(** ** The request test in the words of the protocol description

    A request asks for system information when its document has a
    get_sysinfo field under system.  Every member of the document is looked
    at; [same] tells when the name of a member is the name asked for. *)

Definition has_field_under (same : string → string → bool) (outer inner : string)
    (doc : cJSON) : bool :=
  existsb (λ m, same m.1 outer && existsb (λ k, same k.1 inner) (members_of m.2))
    (members_of doc).

(** Names as they are written. *)
Definition same_as_written (a b : string) : bool := bool_decide (a = b).

(** Names up to the case of the ASCII letters. *)
Definition same_ignoring_case (a b : string) : bool :=
  bool_decide (lowercase a = lowercase b).

(** The system-information request with its two names in capitals. *)
Definition capitals_request : list Z :=
  bytes_of_string (c_literal "{'SYSTEM':{'GET_SYSINFO':{}}}").

(** An unrecognised request, [{'foo':1}] with double quotes, framed with the
    header and followed by one spare cell. *)
Definition framed_foo_buffer : list Z :=
  [0; 0; 0; 9; 208; 242; 148; 251; 148; 182; 140; 189; 192; 7].

(** * Properties *)

(** ** Integers and bytes *)

Lemma uint32_small x : 0 <= x < 2 ^ 32 → uint32 x = x.
Proof. intros H. unfold uint32. by rewrite Z.mod_small. Qed.

Lemma int32_small x : 0 <= x < 2 ^ 31 → int32 x = x.
Proof. intros H. unfold int32. rewrite Z.mod_small; lia. Qed.

Lemma char_small x : is_char x → char x = x.
Proof. intros H. unfold char. by rewrite Z.mod_small. Qed.

Lemma char_is_char x : is_char (char x).
Proof. unfold is_char, char. apply Z.mod_pos_bound. lia. Qed.

Lemma lxor_is_char a b : is_char a → is_char b → is_char (Z.lxor a b).
Proof.
  unfold is_char. intros [Ha1 Ha2] [Hb1 Hb2]. split.
  - by apply Z.lxor_nonneg.
  - destruct (Z.eq_dec (Z.lxor a b) 0) as [->|Hne]; [lia|].
    assert (0 < Z.lxor a b) by (pose proof (proj2 (Z.lxor_nonneg a b)); lia).
    apply (Z.log2_lt_pow2 _ 8); [done|].
    eapply Z.le_lt_trans; [by apply Z.log2_lxor|].
    apply Z.max_lub_lt.
    + destruct (Z.eq_dec a 0) as [->|]; [done|]. apply Z.log2_lt_pow2; lia.
    + destruct (Z.eq_dec b 0) as [->|]; [done|]. apply Z.log2_lt_pow2; lia.
Qed.

Lemma lxor_cancel_r a k : Z.lxor (Z.lxor a k) k = a.
Proof. by rewrite Z.lxor_assoc, Z.lxor_nilpotent, Z.lxor_0_r. Qed.

(** ** Loads and stores *)

Lemma load_lookup (b : buffer) (i : nat) : load b (Z.of_nat i) = b !! i.
Proof.
  unfold load. rewrite (proj2 (Z.leb_le _ _)) by lia. by rewrite Nat2Z.id.
Qed.

Lemma store_in (b : buffer) (i : nat) v :
  (i < length b)%nat → store b (Z.of_nat i) v = Some (<[i := char v]> b).
Proof.
  intros H. unfold store.
  rewrite (proj2 (Z.leb_le _ _)), (proj2 (Z.ltb_lt _ _)) by lia.
  by rewrite Nat2Z.id.
Qed.

Lemma store_within (b : buffer) i v :
  0 <= i < Z.of_nat (length b) → store b i v = Some (<[Z.to_nat i := char v]> b).
Proof.
  intros H. rewrite <- (Z2Nat.id i) at 1 by lia. apply store_in. lia.
Qed.

Lemma store_out (b : buffer) i v :
  Z.of_nat (length b) <= i → store b i v = None.
Proof.
  intros H. unfold store.
  rewrite (proj2 (Z.ltb_ge _ _)) by lia. by rewrite andb_false_r.
Qed.

Lemma store_Some_inv (b b' : buffer) i v :
  store b i v = Some b' →
  0 <= i < Z.of_nat (length b) ∧ b' = <[Z.to_nat i := char v]> b.
Proof.
  unfold store. intros H.
  destruct (0 <=? i) eqn:H1; [|done].
  destruct (i <? Z.of_nat (length b)) eqn:H2; [|done].
  simpl in H. injection H as <-.
  apply Z.leb_le in H1. apply Z.ltb_lt in H2. done.
Qed.

Example parse_sysinfo_text :
  JSONText.parse tplink_kasa_sysinfo = Some sysinfo_document.
Proof. vm_compute. reflexivity. Qed.

Example print_parse_sysinfo :
  JSONText.parse (JSONText.print sysinfo_document) = Some sysinfo_document.
Proof. vm_compute. reflexivity. Qed.

(** ** The two loops against the cipher of the description *)

Lemma decrypt_loop_spec enc (hl : nat) n (i : nat) key (out : buffer) :
  (i + hl + n ≤ length enc)%nat → (i + n ≤ length out)%nat →
  decrypt_loop enc (Z.of_nat hl) n (Z.of_nat i) key out
  = Some (take i out
          ++ (char <$> Autokey.decode key (take n (drop (i + hl) enc)))
          ++ drop (i + n) out).
Proof.
  revert i key out. induction n as [|n IH]; intros i key out Henc Hout.
  - simpl. by rewrite Nat.add_0_r, take_drop.
  - simpl. rewrite <- Nat2Z.inj_add, load_lookup.
    destruct (enc !! (i + hl)%nat) as [c|] eqn:Hc;
      [|apply lookup_ge_None in Hc; lia].
    simpl. rewrite store_in by lia. simpl.
    replace (Z.of_nat i + 1) with (Z.of_nat (S i)) by lia.
    rewrite IH by (rewrite ?length_insert; lia).
    f_equal.
    rewrite (drop_S _ _ _ Hc). simpl.
    rewrite (take_S_r _ _ (char (Z.lxor c key)))
      by (apply list_lookup_insert_eq; lia).
    rewrite take_insert_ge by lia.
    rewrite drop_insert_lt by lia.
    rewrite <- app_assoc. simpl.
    by replace (i + S n)%nat with (S i + n)%nat by lia.
Qed.

Lemma encrypt_loop_spec payload (hl : nat) n (i : nat) key (out : buffer) :
  Forall is_char payload → is_char key →
  (i + n ≤ length payload)%nat → (i + hl + n ≤ length out)%nat →
  encrypt_loop payload (Z.of_nat hl) n (Z.of_nat i) key out
  = Some (take (i + hl) out
          ++ Autokey.encode key (take n (drop i payload))
          ++ drop (i + hl + n) out).
Proof.
  intros Hp. revert i key out.
  induction n as [|n IH]; intros i key out Hkey Hpl Hout.
  - simpl. by rewrite Nat.add_0_r, take_drop.
  - simpl. rewrite load_lookup.
    destruct (payload !! i) as [p|] eqn:Hpi;
      [|apply lookup_ge_None in Hpi; lia].
    simpl.
    assert (is_char p) as Hpc by (eapply Forall_lookup_1; eauto).
    assert (is_char (Z.lxor p key)) as Hc by by apply lxor_is_char.
    rewrite <- Nat2Z.inj_add, store_in by lia. simpl.
    replace (Z.of_nat i + 1) with (Z.of_nat (S i)) by lia.
    rewrite !(char_small (Z.lxor p key)) by done.
    rewrite IH by (rewrite ?length_insert; done || lia).
    f_equal.
    rewrite (drop_S _ _ _ Hpi). simpl.
    replace (S i + hl)%nat with (S (i + hl)) by lia.
    rewrite (take_S_r _ _ (Z.lxor p key))
      by (apply list_lookup_insert_eq; lia).
    rewrite take_insert_ge by lia.
    rewrite drop_insert_lt by lia.
    rewrite <- app_assoc. simpl.
    by replace (i + hl + S n)%nat with (S (i + hl) + n)%nat by lia.
Qed.

(** ** The decoder as a whole *)

Lemma payload_length_nonneg b0 b1 b2 b3 : 0 <= payload_length_of_bytes b0 b1 b2 b3.
Proof.
  unfold payload_length_of_bytes.
  pose proof (char_is_char b0) as [? _]. pose proof (char_is_char b1) as [? _].
  pose proof (char_is_char b2) as [? _]. pose proof (char_is_char b3) as [? _].
  repeat (apply Z.lor_nonneg; split); try (apply Z.shiftl_nonneg); done.
Qed.

Lemma decrypt_window_cases b0 b1 b2 b3 len :
  4 < len < 2 ^ 31 →
  let w := decrypt_window b0 b1 b2 b3 len in
  (len - 4 < payload_length_of_bytes b0 b1 b2 b3 ∧ w = (0, len))
  ∨ (payload_length_of_bytes b0 b1 b2 b3 <= len - 4
     ∧ w = (4, payload_length_of_bytes b0 b1 b2 b3)).
Proof.
  intros Hlen. unfold decrypt_window, sizeof_payload_header. simpl.
  rewrite !uint32_small by lia.
  destruct (len - 4 <? payload_length_of_bytes b0 b1 b2 b3) eqn:Hcmp.
  - apply Z.ltb_lt in Hcmp. by left.
  - apply Z.ltb_ge in Hcmp. by right.
Qed.

Lemma decrypt_window_bounds b0 b1 b2 b3 len :
  4 < len < 2 ^ 31 →
  let w := decrypt_window b0 b1 b2 b3 len in
  0 <= w.2 ∧ (w.1 = 0 ∨ w.1 = 4) ∧ w.1 + w.2 <= len.
Proof.
  intros Hlen. pose proof (payload_length_nonneg b0 b1 b2 b3).
  destruct (decrypt_window_cases b0 b1 b2 b3 len Hlen) as [[? ->]|[? ->]];
    simpl; lia.
Qed.

Lemma insert_terminator (plain out : list Z) :
  (length plain < length out)%nat →
  <[length plain := 0]> (plain ++ drop (length plain) out)
  = plain ++ 0 :: drop (S (length plain)) out.
Proof.
  intros H.
  rewrite <- (Nat.add_0_r (length plain)) at 1. rewrite insert_app_r.
  f_equal.
  destruct (out !! length plain) as [x|] eqn:Hx;
    [|apply lookup_ge_None in Hx; lia].
  by rewrite (drop_S _ _ _ Hx).
Qed.

Lemma store_terminator (plain out : list Z) L :
  length plain = Z.to_nat L → 0 <= L → L < Z.of_nat (length out) →
  store (plain ++ drop (Z.to_nat L) out) L 0
  = Some (plain ++ 0 :: drop (S (Z.to_nat L)) out).
Proof.
  intros Hpl HL Hout. rewrite <- Hpl.
  replace L with (Z.of_nat (length plain)) at 1 by lia.
  rewrite store_in by (rewrite length_app, length_drop; lia).
  change (char 0) with 0. by rewrite insert_terminator by lia.
Qed.

Lemma decode_length key cs : length (Autokey.decode key cs) = length cs.
Proof. revert key. induction cs as [|c cs IH]; intros key; simpl; [done|]. by rewrite IH. Qed.

Lemma encode_length key ps : length (Autokey.encode key ps) = length ps.
Proof. revert key. induction ps as [|p ps IH]; intros key; simpl; [done|]. by rewrite IH. Qed.

(** What the decoder returns on more than four bytes, whenever the input
    array holds [encrypted_len] bytes and the output array has a cell for the
    terminator. *)
Lemma decrypt_long b0 b1 b2 b3 rest len out flag :
  let enc := b0 :: b1 :: b2 :: b3 :: rest in
  let hl := (decrypt_window b0 b1 b2 b3 len).1 in
  let L := (decrypt_window b0 b1 b2 b3 len).2 in
  4 < len < 2 ^ 31 →
  len <= Z.of_nat (length enc) →
  L < Z.of_nat (length out) →
  tplink_kasa_decrypt enc len out flag
  = Some (L, (char <$> Autokey.decode cipher_key
                         (take (Z.to_nat L) (drop (Z.to_nat hl) enc)))
             ++ 0 :: drop (S (Z.to_nat L)) out).
Proof.
  intros enc hl L Hlen Henc Hout.
  pose proof (payload_length_nonneg b0 b1 b2 b3) as Hnn.
  destruct (decrypt_window_bounds b0 b1 b2 b3 len Hlen) as (HL0 & Hhl & HhlL).
  fold hl L in HL0, Hhl, HhlL.
  unfold tplink_kasa_decrypt, sizeof_payload_header.
  rewrite uint32_small by lia.
  rewrite (proj2 (Z.leb_gt _ _)) by lia.
  change (load enc 0) with (Some b0). change (load enc 1) with (Some b1).
  change (load enc 2) with (Some b2). change (load enc 3) with (Some b3).
  simpl.
  destruct (decrypt_window b0 b1 b2 b3 len) as [hl' L'] eqn:Hw.
  simpl in hl, L. subst hl L.
  rewrite <- (Z2Nat.id hl') at 1 by lia.
  pose proof (decrypt_loop_spec enc (Z.to_nat hl') (Z.to_nat L') 0
                cipher_key out) as Hloop.
  change (Z.of_nat 0) with 0 in Hloop.
  rewrite Hloop by (simpl in *; lia). clear Hloop.
  simpl.
  set (plain := char <$> Autokey.decode cipher_key
                           (take (Z.to_nat L') (drop (Z.to_nat hl') enc))).
  assert (length plain = Z.to_nat L') as Hpl.
  { subst plain. rewrite length_fmap, decode_length, length_take, length_drop.
    simpl in *. lia. }
  rewrite (store_terminator plain out L') by (done || lia).
  simpl. by rewrite int32_small by lia.
Qed.

Lemma lor_lt_pow2 a b n :
  0 <= n → 0 <= a < 2 ^ n → 0 <= b < 2 ^ n → 0 <= Z.lor a b < 2 ^ n.
Proof.
  intros Hn Ha Hb. split; [apply Z.lor_nonneg; lia|].
  destruct (Z.eq_dec (Z.lor a b) 0) as [->|Hne]; [lia|].
  assert (0 < Z.lor a b) by (pose proof (proj2 (Z.lor_nonneg a b)); lia).
  assert (0 < n).
  { destruct (Z.eq_dec n 0) as [->|]; [|lia].
    assert (a = 0) as -> by (simpl in *; lia).
    assert (b = 0) as -> by (simpl in *; lia). done. }
  apply Z.log2_lt_pow2; [done|].
  rewrite Z.log2_lor by lia.
  apply Z.max_lub_lt.
  - destruct (Z.eq_dec a 0) as [->|]; [simpl; lia|]. apply Z.log2_lt_pow2; lia.
  - destruct (Z.eq_dec b 0) as [->|]; [simpl; lia|]. apply Z.log2_lt_pow2; lia.
Qed.

Lemma payload_length_range b0 b1 b2 b3 :
  0 <= payload_length_of_bytes b0 b1 b2 b3 < 2 ^ 32.
Proof.
  unfold payload_length_of_bytes.
  pose proof (char_is_char b0) as H0. pose proof (char_is_char b1) as H1.
  pose proof (char_is_char b2) as H2. pose proof (char_is_char b3) as H3.
  unfold is_char in *.
  repeat (apply lor_lt_pow2; [lia| |]); rewrite ?Z.shiftl_mul_pow2 by lia; lia.
Qed.

Lemma decrypt_loop_length enc hl n i key (out out' : buffer) :
  decrypt_loop enc hl n i key out = Some out' → length out' = length out.
Proof.
  revert i key out. induction n as [|n IH]; intros i key out H; simpl in H.
  - by injection H as <-.
  - destruct (load enc (i + hl)) as [c|]; [|done]. simpl in H.
    destruct (store out i (Z.lxor c key)) as [out1|] eqn:Hst; [|done].
    simpl in H. apply IH in H. apply store_Some_inv in Hst as [_ ->].
    by rewrite length_insert in H.
Qed.

Lemma decrypt_loop_tail enc hl n i key (out out' : buffer) :
  decrypt_loop enc hl n i key out = Some out' →
  drop (Z.to_nat i + n) out' = drop (Z.to_nat i + n) out.
Proof.
  revert i key out. induction n as [|n IH]; intros i key out H; simpl in H.
  - by injection H as <-.
  - destruct (load enc (i + hl)) as [c|]; [|done]. simpl in H.
    destruct (store out i (Z.lxor c key)) as [out1|] eqn:Hst; [|done].
    simpl in H. apply IH in H. apply store_Some_inv in Hst as [Hi ->].
    replace (Z.to_nat (i + 1) + n)%nat with (Z.to_nat i + S n)%nat in H by lia.
    rewrite H. apply drop_insert_lt. lia.
Qed.

Lemma decrypt_loop_overflow enc (hl : nat) n (i : nat) key (out : buffer) :
  (i + hl + n ≤ length enc)%nat → (i ≤ length out)%nat →
  (length out < i + n)%nat →
  decrypt_loop enc (Z.of_nat hl) n (Z.of_nat i) key out = None.
Proof.
  revert i key out. induction n as [|n IH]; intros i key out Henc Hi Hout.
  - lia.
  - simpl. rewrite <- Nat2Z.inj_add, load_lookup.
    destruct (enc !! (i + hl)%nat) as [c|] eqn:Hc;
      [|apply lookup_ge_None in Hc; lia].
    simpl. destruct (decide (i < length out)%nat) as [Hlt|Hge].
    + rewrite store_in by lia. simpl.
      replace (Z.of_nat i + 1) with (Z.of_nat (S i)) by lia.
      apply IH; rewrite ?length_insert; lia.
    + by rewrite store_out by lia.
Qed.

(** The decoder leaves its output array when that array has no cell left
    for the terminator. *)
Lemma decrypt_long_overflow b0 b1 b2 b3 rest len out flag :
  let enc := b0 :: b1 :: b2 :: b3 :: rest in
  let L := (decrypt_window b0 b1 b2 b3 len).2 in
  4 < len < 2 ^ 31 →
  len <= Z.of_nat (length enc) →
  Z.of_nat (length out) <= L →
  tplink_kasa_decrypt enc len out flag = None.
Proof.
  intros enc L Hlen Henc Hout.
  pose proof (payload_length_nonneg b0 b1 b2 b3) as Hnn.
  unfold tplink_kasa_decrypt, sizeof_payload_header.
  rewrite uint32_small by lia.
  rewrite (proj2 (Z.leb_gt _ _)) by lia.
  change (load enc 0) with (Some b0). change (load enc 1) with (Some b1).
  change (load enc 2) with (Some b2). change (load enc 3) with (Some b3).
  simpl.
  destruct (decrypt_window b0 b1 b2 b3 len) as [hl' L'] eqn:Hw.
  simpl in L. subst L.
  destruct (decrypt_window_bounds b0 b1 b2 b3 len Hlen) as (HL0 & Hhl & HhlL).
  rewrite Hw in HL0, Hhl, HhlL. simpl in HL0, Hhl, HhlL.
  destruct (decide (Z.of_nat (length out) = L')) as [Heq|Hne].
  - pose proof (decrypt_loop_spec enc (Z.to_nat hl') (Z.to_nat L') 0
                  cipher_key out) as Hloop.
    change (Z.of_nat 0) with 0 in Hloop.
    rewrite Z2Nat.id in Hloop by lia.
    rewrite Hloop by (simpl in *; lia). clear Hloop. simpl.
    rewrite store_out; [done|].
    rewrite length_app, length_fmap, decode_length, length_take, !length_drop.
    simpl in *. lia.
  - pose proof (decrypt_loop_overflow enc (Z.to_nat hl') (Z.to_nat L') 0
                  cipher_key out) as Hloop.
    change (Z.of_nat 0) with 0 in Hloop.
    rewrite Z2Nat.id in Hloop by lia.
    rewrite Hloop by (simpl in *; lia). done.
Qed.

(** ** Strings *)

Lemma strlen_nonneg s : 0 <= strlen s.
Proof. induction s as [|c s IH]; simpl; [done|]. destruct (c =? 0); lia. Qed.

Lemma c_str_terminated plain rest :
  c_str (plain ++ 0 :: rest) = Some (text_of plain).
Proof.
  unfold text_of. induction plain as [|c plain IH]; simpl; [done|].
  destruct (c =? 0) eqn:Hc; [done|].
  rewrite IH. simpl. pose proof (strlen_nonneg plain).
  by rewrite Z2Nat.inj_add, Nat.add_1_l by lia.
Qed.

Lemma strlen_text s : is_text s → strlen s = Z.of_nat (length s).
Proof.
  induction 1 as [|c s Hc _ IH]; simpl; [done|].
  rewrite (proj2 (Z.eqb_neq c 0)) by lia. lia.
Qed.

Lemma is_text_chars s : is_text s → Forall is_char s.
Proof. intros H. eapply Forall_impl; [exact H|]. unfold is_char. simpl. lia. Qed.

(** ** The request as [tplink_kasa_process_buffer] decodes it *)

Lemma four_cells (b : list Z) :
  (4 ≤ length b)%nat → ∃ b0 b1 b2 b3 rest, b = b0 :: b1 :: b2 :: b3 :: rest.
Proof.
  destruct b as [|b0 [|b1 [|b2 [|b3 rest]]]]; simpl; try lia. eauto 6.
Qed.

Lemma malloc_length n : 0 <= n → Z.of_nat (length (malloc n)) = n + 1.
Proof.
  intros Hn. unfold malloc. rewrite length_app, length_replicate. simpl. lia.
Qed.

Lemma decode_request_short raw len flag :
  0 <= len <= 4 → len < Z.of_nat (length raw) →
  ∃ blk, decode_request raw len flag = Some (<[Z.to_nat len := 0]> raw, blk)
         ∧ c_str blk = Some [].
Proof.
  intros Hlen Hraw. unfold decode_request.
  rewrite store_within by lia. change (char 0) with 0. simpl.
  unfold tplink_kasa_decrypt, sizeof_payload_header.
  rewrite uint32_small by lia.
  rewrite (proj2 (Z.leb_le _ _)) by lia.
  rewrite store_within by (pose proof (malloc_length len); lia).
  simpl. eexists. split; [done|].
  unfold malloc. destruct (Z.to_nat len); done.
Qed.

Lemma decode_request_long raw len flag :
  4 < len < 2 ^ 31 → len < Z.of_nat (length raw) →
  ∃ b0 b1 b2 b3 rest,
    <[Z.to_nat len := 0]> raw = b0 :: b1 :: b2 :: b3 :: rest
    ∧ take 4 raw = [b0; b1; b2; b3]
    ∧ let hl := (decrypt_window b0 b1 b2 b3 len).1 in
      let L := (decrypt_window b0 b1 b2 b3 len).2 in
      let plain := char <$> Autokey.decode cipher_key
                     (take (Z.to_nat L) (drop (Z.to_nat hl) (<[Z.to_nat len := 0]> raw))) in
      decode_request raw len flag
      = Some (<[Z.to_nat len := 0]> raw,
              plain ++ 0 :: drop (S (Z.to_nat L)) (malloc len))
      ∧ length plain = Z.to_nat L ∧ 0 <= L <= len.
Proof.
  intros Hlen Hraw.
  destruct (four_cells (<[Z.to_nat len := 0]> raw)) as (b0 & b1 & b2 & b3 & rest & Hfour).
  { rewrite length_insert. lia. }
  exists b0, b1, b2, b3, rest. split; [done|]. split.
  { rewrite <- (take_insert_ge raw 4 (Z.to_nat len) 0) by lia. by rewrite Hfour. }
  intros hl L plain.
  destruct (decrypt_window_bounds b0 b1 b2 b3 len Hlen) as (HL0 & Hhl & HhlL).
  fold hl L in HL0, Hhl, HhlL.
  assert (Z.of_nat (length (<[Z.to_nat len := 0]> raw)) = Z.of_nat (length raw)) as Hlr
    by by rewrite length_insert.
  split; [|split; [|lia]].
  - unfold decode_request.
    rewrite store_within by lia. change (char 0) with 0. simpl.
    subst plain. rewrite Hfour in *.
    rewrite decrypt_long; [done|lia|lia|].
    pose proof (malloc_length len). fold L. lia.
  - subst plain. rewrite length_fmap, decode_length, length_take, length_drop. lia.
Qed.

Lemma decode_request_total raw len flag :
  0 <= len < 2 ^ 31 → len < Z.of_nat (length raw) →
  ∃ blk text, decode_request raw len flag = Some (<[Z.to_nat len := 0]> raw, blk)
              ∧ c_str blk = Some text.
Proof.
  intros Hlen Hraw. destruct (decide (len <= 4)) as [Hs|Hl].
  - destruct (decode_request_short raw len flag) as (blk & ? & ?); [lia..|]. eauto.
  - destruct (decode_request_long raw len flag)
      as (b0 & b1 & b2 & b3 & rest & _ & _ & Hd & _); [lia..|].
    eexists _, _. split; [exact Hd|]. apply c_str_terminated.
Qed.

Lemma decrypt_fallback b0 b1 b2 b3 rest len out flag :
  let enc := b0 :: b1 :: b2 :: b3 :: rest in
  4 < len < 2 ^ 31 →
  len <= Z.of_nat (length enc) →
  len - 4 < payload_length_of_bytes b0 b1 b2 b3 →
  len < Z.of_nat (length out) →
  tplink_kasa_decrypt enc len out flag
  = Some (len, (char <$> Autokey.decode cipher_key (take (Z.to_nat len) enc))
               ++ 0 :: drop (S (Z.to_nat len)) out).
Proof.
  intros enc Hlen Henc Hdecl Hout.
  pose proof (decrypt_long b0 b1 b2 b3 rest len out flag) as H.
  destruct (decrypt_window_cases b0 b1 b2 b3 len Hlen) as [[_ Hw]|[? _]]; [|lia].
  rewrite Hw in H. simpl in H. apply H; done.
Qed.

Lemma decrypt_fallback_overflow b0 b1 b2 b3 rest len out flag :
  let enc := b0 :: b1 :: b2 :: b3 :: rest in
  4 < len < 2 ^ 31 →
  len <= Z.of_nat (length enc) →
  len - 4 < payload_length_of_bytes b0 b1 b2 b3 →
  Z.of_nat (length out) <= len →
  tplink_kasa_decrypt enc len out flag = None.
Proof.
  intros enc Hlen Henc Hdecl Hout.
  apply decrypt_long_overflow; [done..|].
  destruct (decrypt_window_cases b0 b1 b2 b3 len Hlen) as [[_ ->]|[? _]];
    simpl; lia.
Qed.

Lemma decode_request_fallback b0 b1 b2 b3 rest len flag :
  let raw := b0 :: b1 :: b2 :: b3 :: rest in
  4 < len < 2 ^ 31 → len < Z.of_nat (length raw) →
  len - 4 < payload_length_of_bytes b0 b1 b2 b3 →
  ∃ raw' blk, decode_request raw len flag = Some (raw', blk)
              ∧ Z.of_nat (length blk) = len + 1
              ∧ blk !! Z.to_nat len = Some 0.
Proof.
  intros raw Hlen Hraw Hdecl.
  destruct (decode_request_long raw len flag)
    as (c0 & c1 & c2 & c3 & rest' & _ & Htake & Hd & Hpl & HL); [done..|].
  simpl in Htake. injection Htake as <- <- <- <-.
  destruct (decrypt_window_cases b0 b1 b2 b3 len Hlen) as [[_ Hw]|[? _]]; [|lia].
  rewrite Hw in *. simpl in *.
  eexists _, _. split; [exact Hd|]. split.
  - rewrite length_app, Hpl. simpl. rewrite length_drop.
    pose proof (malloc_length len). lia.
  - rewrite lookup_app_r by lia. by rewrite Hpl, Nat.sub_diag.
Qed.

(** ** Requests whose decoding stays inside the block

    One to four bytes, or more than four bytes with a header that declares
    no more than the bytes behind it.  On these the decoder is within an
    array of exactly [buffer_len] cells, and the block of the responder is
    that array followed by the untouched red-zone cell. *)

Lemma c_str_app (b rest : list Z) text :
  c_str b = Some text → c_str (b ++ rest) = Some text.
Proof.
  revert text. induction b as [|c b IH]; intros text; simpl; [done|].
  destruct (c =? 0); [done|].
  destruct (c_str b) as [t|]; simpl; [|done].
  intros [= <-]. by rewrite (IH t eq_refl).
Qed.

Lemma decode_request_in_block raw len flag :
  1 <= len < 2 ^ 31 → len < Z.of_nat (length raw) →
  len <= 4 ∨ declared_length raw <= len - 4 →
  ∃ n text_block text,
    tplink_kasa_decrypt (<[Z.to_nat len := 0]> raw) len
      (replicate (Z.to_nat len) 0) flag = Some (n, text_block)
    ∧ c_str text_block = Some text
    ∧ decode_request raw len flag
      = Some (<[Z.to_nat len := 0]> raw, text_block ++ [red_zone])
    ∧ (len <= 4 → text = []).
Proof.
  intros Hlen Hraw Hfit. destruct (decide (len <= 4)) as [Hs|Hl].
  - exists 0, (<[0%nat := 0]> (replicate (Z.to_nat len) 0)), [].
    assert (∃ k, Z.to_nat len = S k) as [k Hk] by (exists (Z.to_nat len - 1)%nat; lia).
    assert (tplink_kasa_decrypt (<[Z.to_nat len := 0]> raw) len
              (replicate (Z.to_nat len) 0) flag
            = Some (0, <[0%nat := 0]> (replicate (Z.to_nat len) 0))) as Hexact.
    { unfold tplink_kasa_decrypt, sizeof_payload_header.
      rewrite uint32_small by lia.
      rewrite (proj2 (Z.leb_le _ _)) by lia.
      by rewrite store_within by (rewrite length_replicate; lia). }
    split; [done|]. split; [by rewrite Hk|]. split; [|done].
    unfold decode_request.
    rewrite store_within by lia. change (char 0) with 0. simpl.
    unfold tplink_kasa_decrypt, sizeof_payload_header.
    rewrite uint32_small by lia.
    rewrite (proj2 (Z.leb_le _ _)) by lia.
    rewrite store_within by (pose proof (malloc_length len); lia).
    simpl. unfold malloc. by rewrite Hk.
  - destruct Hfit as [?|Hfit]; [lia|].
    destruct (decode_request_long raw len flag)
      as (b0 & b1 & b2 & b3 & rest & Hfour & Htake & Hd & Hpl & HL); [lia..|].
    assert (declared_length raw = payload_length_of_bytes b0 b1 b2 b3) as Hdecl.
    { destruct raw as [|r0 [|r1 [|r2 [|r3 raw]]]]; simpl in Htake; try done.
      by injection Htake as -> -> -> ->. }
    rewrite Hdecl in Hfit.
    pose proof (payload_length_nonneg b0 b1 b2 b3) as Hnn.
    destruct (decrypt_window_cases b0 b1 b2 b3 len ltac:(lia)) as [[? _]|[_ Hw]]; [lia|].
    pose proof (decrypt_long b0 b1 b2 b3 rest len (replicate (Z.to_nat len) 0) flag)
      as Hexact.
    cbv zeta in Hexact. rewrite Hw in *. cbn [fst snd] in Hexact, Hd, Hpl.
    rewrite <- Hfour in Hexact.
    rewrite Hexact;
      [|lia|rewrite <- ?Hfour, ?length_insert; lia|rewrite length_replicate; lia].
    eexists _, _, _. split; [done|]. split; [apply c_str_terminated|].
    split; [|lia].
    rewrite Hd. do 2 f_equal.
    rewrite <- app_assoc. simpl. do 2 f_equal.
    unfold malloc. rewrite drop_app_le by (rewrite length_replicate; lia). done.
Qed.

(** ** The request test of the code against the one of the description *)

Lemma first_match_none name ms i :
  existsb (λ k : string * cJSON, same_ignoring_case k.1 name) ms = false →
  first_match name ms i = None.
Proof.
  revert i. induction ms as [|m ms IH]; intros i; simpl; [done|].
  intros H. apply orb_false_iff in H as [Hm Hms].
  unfold name_matches. unfold same_ignoring_case in Hm. rewrite Hm. by apply IH.
Qed.

Lemma first_match_found name ms i j :
  first_match name ms i = Some j →
  ∃ m, ms !! (j - i)%nat = Some m ∧ same_ignoring_case m.1 name = true ∧ (i ≤ j)%nat.
Proof.
  revert i. induction ms as [|m ms IH]; intros i; simpl; [done|].
  destruct (name_matches name m) eqn:Hm.
  - intros [= <-]. exists m. rewrite Nat.sub_diag. done.
  - intros H. destruct (IH _ H) as (m' & Hl & Hs & Hle).
    exists m'. split; [|split; [done|lia]].
    replace (j - i)%nat with (S (j - S i)) by lia. done.
Qed.

(** A document without a get_sysinfo field under system, names compared
    without regard to case, is one the lookups of the responder turn down. *)
Lemma lookup_turns_down doc :
  has_field_under same_ignoring_case "system" "get_sysinfo" doc = false →
  cJSON_HasObjectItem doc (cJSON_GetObjectItem doc (Some []) "system") "get_sysinfo"
  = false.
Proof.
  intros Hno. unfold cJSON_HasObjectItem, cJSON_GetObjectItem. simpl.
  destruct (first_match "system" (members_of doc) 0) as [i|] eqn:Hsys; simpl; [|done].
  destruct (first_match_found _ _ _ _ Hsys) as (m & Hm & Hsame & _).
  rewrite Nat.sub_0_r in Hm. rewrite Hm. simpl.
  unfold has_field_under in Hno.
  assert (existsb (λ k : string * cJSON, same_ignoring_case k.1 "get_sysinfo")
            (members_of m.2) = false) as Hinner.
  { destruct (existsb _ (members_of m.2)) eqn:Hex; [|done].
    rewrite <- Hno. symmetry. apply existsb_exists. exists m.
    split; [apply list_elem_of_In; by eapply list_elem_of_lookup_2|].
    by rewrite Hsame, Hex. }
  by rewrite (first_match_none _ _ _ Hinner).
Qed.

(** ** The encoder as a whole *)

Lemma header_byte_is_char L k : is_char (header_byte L k).
Proof.
  unfold header_byte, is_char. change 255 with (Z.ones 8).
  rewrite Z.land_ones by lia. apply Z.mod_pos_bound. lia.
Qed.

Lemma store_header (buf : list Z) h0 h1 h2 h3 :
  (4 ≤ length buf)%nat →
  is_char h0 → is_char h1 → is_char h2 → is_char h3 →
  (out ← store buf 0 h0; out ← store out 1 h1; out ← store out 2 h2; store out 3 h3)
  = Some ([h0; h1; h2; h3] ++ drop 4 buf).
Proof.
  intros Hlen ? ? ? ?.
  destruct buf as [|x0 [|x1 [|x2 [|x3 buf]]]]; simpl in Hlen; try lia.
  unfold store. simpl length.
  repeat (rewrite (proj2 (Z.ltb_lt _ _)) by lia; simpl).
  by rewrite !char_small.
Qed.

Lemma encrypt_payload_spec payload (buf : list Z) (flag : bool) :
  let n := length payload in
  let hl : nat := if flag then 4%nat else 0%nat in
  is_text payload →
  Z.of_nat n + 4 < 2 ^ 31 →
  (4 ≤ length buf)%nat → (hl + n ≤ length buf)%nat →
  encrypt_payload payload buf flag
  = Some (Z.of_nat (n + hl),
          take hl (header_bytes (Z.of_nat n))
          ++ Autokey.encode cipher_key payload
          ++ drop (hl + n) (header_bytes (Z.of_nat n) ++ drop 4 buf)).
Proof.
  intros n hl Htext Hn Hbuf Hcap.
  assert (n = length payload) as Hndef by done.
  assert (hl = 0 ∨ hl = 4)%nat as Hhl by (subst hl; destruct flag; lia).
  assert (Z.of_nat hl = if flag then 4 else 0) as Hhlz by (subst hl; by destruct flag).
  assert (take hl (header_bytes (Z.of_nat n))
          = take hl (header_bytes (Z.of_nat n) ++ drop 4 buf)) as Htk
    by (subst hl; by destruct flag).
  clearbody n hl.
  unfold encrypt_payload, sizeof_payload_header.
  rewrite strlen_text by done. rewrite <- Hndef.
  rewrite uint32_small by lia.
  pose proof (store_header buf _ _ _ _ Hbuf
                (header_byte_is_char (Z.of_nat n) 3) (header_byte_is_char (Z.of_nat n) 2)
                (header_byte_is_char (Z.of_nat n) 1) (header_byte_is_char (Z.of_nat n) 0))
    as Hhdr.
  destruct (store buf 0 _) as [o1|]; [|done]. simpl in Hhdr |- *.
  destruct (store o1 1 _) as [o2|]; [|done]. simpl in Hhdr |- *.
  destruct (store o2 2 _) as [o3|]; [|done]. simpl in Hhdr |- *.
  rewrite Hhdr. simpl. clear Hhdr o1 o2 o3.
  rewrite Htk. unfold header_bytes. simpl app.
  set (out4 := header_byte (Z.of_nat n) 3 :: _).
  assert (length out4 = length buf) as Hlen4.
  { subst out4. simpl. rewrite length_drop. lia. }
  rewrite <- Hhlz, Nat2Z.id.
  pose proof (encrypt_loop_spec payload hl n 0 cipher_key out4
                (is_text_chars _ Htext)) as Hloop.
  change (Z.of_nat 0) with 0 in Hloop.
  rewrite Hloop; [|unfold is_char, cipher_key; lia|lia|lia].
  clear Hloop. simpl.
  rewrite int32_small by lia.
  change (drop 0 payload) with payload.
  replace (take n payload) with payload by (by rewrite Hndef, firstn_all).
  do 2 f_equal. lia.
Qed.

Lemma decode_lookup key cs i c :
  cs !! i = Some c →
  Autokey.decode key cs !! i = Some (Z.lxor c (key_at key cs i)).
Proof.
  revert key i. induction cs as [|c0 cs IH]; intros key i H; [done|].
  destruct i as [|j]; simpl in *.
  - by injection H as ->.
  - rewrite (IH c0 j H). by destruct j.
Qed.

Lemma encode_lookup key ps i p :
  ps !! i = Some p →
  Autokey.encode key ps !! i
  = Some (Z.lxor p (key_at key (Autokey.encode key ps) i)).
Proof.
  revert key i. induction ps as [|p0 ps IH]; intros key i H; [done|].
  destruct i as [|j]; simpl in *.
  - by injection H as ->.
  - rewrite (IH _ j H). by destruct j.
Qed.

(** ** The header and the cipher undone *)

Lemma testbit_255 m : Z.testbit 255 m = (0 <=? m) && (m <? 8).
Proof.
  destruct (Z.leb_spec 0 m) as [H|H].
  - change 255 with (Z.ones 8). by rewrite Z.testbit_ones_nonneg by lia.
  - by rewrite Z.testbit_neg_r by lia.
Qed.

Lemma payload_length_of_header_bytes L :
  0 <= L < 2 ^ 32 →
  payload_length_of_bytes (header_byte L 3) (header_byte L 2)
    (header_byte L 1) (header_byte L 0) = L.
Proof.
  intros HL. unfold payload_length_of_bytes, header_byte, char.
  change 256 with (2 ^ 8). rewrite <- !Z.land_ones by lia.
  change (Z.ones 8) with 255.
  apply Z.bits_inj'. intros n Hn.
  assert (32 <= n → Z.testbit L n = false) as Hhigh.
  { intros H. destruct (Z.eq_dec L 0) as [->|]; [apply Z.bits_0|].
    apply Z.bits_above_log2; [lia|].
    apply Z.lt_le_trans with 32; [|lia]. apply Z.log2_lt_pow2; lia. }
  rewrite !Z.lor_spec, !Z.shiftl_spec, !Z.land_spec, !testbit_255 by lia.
  change (8 * 3) with 24. change (8 * 2) with 16. change (8 * 1) with 8.
  change (8 * 0) with 0. rewrite Z.shiftr_0_r.
  destruct (Z.leb_spec 0 (n - 24)); destruct (Z.ltb_spec (n - 24) 8);
  destruct (Z.leb_spec 0 (n - 16)); destruct (Z.ltb_spec (n - 16) 8);
  destruct (Z.leb_spec 0 (n - 8)); destruct (Z.ltb_spec (n - 8) 8);
  destruct (Z.leb_spec 0 n); destruct (Z.ltb_spec n 8); try lia;
  rewrite ?andb_false_r, ?andb_true_r, ?orb_false_r, ?orb_false_l;
  rewrite ?Z.shiftr_spec by lia;
  rewrite ?Z.sub_add; try done.
  symmetry. apply Hhigh. lia.
Qed.

Lemma decode_encode key ps : Autokey.decode key (Autokey.encode key ps) = ps.
Proof.
  revert key. induction ps as [|p ps IH]; intros key; simpl; [done|].
  by rewrite lxor_cancel_r, IH.
Qed.

Lemma fmap_char_chars (s : list Z) : Forall is_char s → char <$> s = s.
Proof.
  induction 1 as [|c s Hc _ IH]; [done|]. by rewrite fmap_cons, char_small, IH.
Qed.

(** With the header on both sides the decoder undoes the encoder. *)
Lemma roundtrip_with_header payload (buf out : list Z) :
  let n := length payload in
  is_text payload → Z.of_nat n + 4 < 2 ^ 31 →
  (n + 4 ≤ length buf)%nat → (n < length out)%nat →
  ∃ enc out',
    encrypt_payload payload buf true = Some (Z.of_nat n + 4, enc)
    ∧ tplink_kasa_decrypt enc (Z.of_nat n + 4) out true = Some (Z.of_nat n, out')
    ∧ c_str out' = Some payload.
Proof.
  intros n Htext Hn Hbuf Hout.
  assert (n = length payload) as Hndef by done. clearbody n.
  pose proof (encrypt_payload_spec payload buf true Htext) as Henc.
  simpl in Henc. rewrite <- Hndef in Henc.
  rewrite Henc by lia. clear Henc.
  destruct (decide (n = 0)%nat) as [->|Hpos].
  - destruct payload; [|done]. simpl.
    destruct out as [|x out]; [simpl in Hout; lia|].
    eexists _, (0 :: out). split; [done|]. split; [|done].
    unfold tplink_kasa_decrypt. by rewrite store_within by (simpl; lia).
  - eexists _, _. split; [f_equal; f_equal; lia|].
    set (tail := drop n (drop 4 buf)).
    pose proof (decrypt_long (header_byte (Z.of_nat n) 3)
                  (header_byte (Z.of_nat n) 2) (header_byte (Z.of_nat n) 1)
                  (header_byte (Z.of_nat n) 0)
                  (Autokey.encode cipher_key payload ++ tail)
                  (Z.of_nat n + 4) out true) as Hdec.
    assert (decrypt_window (header_byte (Z.of_nat n) 3)
              (header_byte (Z.of_nat n) 2) (header_byte (Z.of_nat n) 1)
              (header_byte (Z.of_nat n) 0) (Z.of_nat n + 4) = (4, Z.of_nat n)) as Hw.
    { unfold decrypt_window, sizeof_payload_header.
      rewrite payload_length_of_header_bytes by lia.
      rewrite uint32_small by lia.
      by rewrite (proj2 (Z.ltb_ge _ _)) by lia. }
    rewrite Hw in Hdec. simpl in Hdec.
    rewrite Hdec; [|lia|rewrite length_app, encode_length; lia|lia].
    clear Hdec. rewrite Nat2Z.id, drop_0.
    rewrite take_app_length' by (by rewrite encode_length).
    rewrite decode_encode, fmap_char_chars by by apply is_text_chars.
    split; [done|].
    rewrite c_str_terminated. unfold text_of.
    by rewrite strlen_text, Nat2Z.id, firstn_all.
Qed.

Lemma pow2_le_lor_l k a b : 0 <= k → 0 <= b → 2 ^ k <= a → 2 ^ k <= Z.lor a b.
Proof.
  intros Hk Hb Ha.
  assert (0 < 2 ^ k) by (apply Z.pow_pos_nonneg; lia).
  assert (0 < Z.lor a b).
  { pose proof (proj2 (Z.lor_nonneg a b)).
    destruct (Z.eq_dec (Z.lor a b) 0) as [Hz|]; [|lia].
    apply Z.lor_eq_0_iff in Hz. lia. }
  apply Z.log2_le_pow2; [done|].
  rewrite Z.log2_lor by lia.
  apply Z.max_le_iff. left. apply Z.log2_le_pow2; lia.
Qed.

Lemma pow2_le_lor_r k a b : 0 <= k → 0 <= a → 2 ^ k <= b → 2 ^ k <= Z.lor a b.
Proof. intros. rewrite Z.lor_comm. by apply pow2_le_lor_l. Qed.

(** A header whose first or second byte is not zero declares at least
    65536 bytes. *)
Lemma payload_length_large b0 b1 b2 b3 :
  is_char b0 → is_char b1 → b0 ≠ 0 ∨ b1 ≠ 0 →
  2 ^ 16 <= payload_length_of_bytes b0 b1 b2 b3.
Proof.
  intros H0 H1 Hne. unfold payload_length_of_bytes.
  rewrite (char_small b0), (char_small b1) by done.
  pose proof (char_is_char b2) as H2. pose proof (char_is_char b3) as H3.
  unfold is_char in *.
  assert (0 <= Z.lor (Z.shiftl (char b2) 8) (char b3)).
  { apply Z.lor_nonneg. split; [apply Z.shiftl_nonneg|]; lia. }
  destruct (decide (b0 = 0)) as [->|Hb0].
  - apply pow2_le_lor_r; [lia|done|].
    apply pow2_le_lor_l; [lia|done|].
    rewrite Z.shiftl_mul_pow2 by lia. lia.
  - apply pow2_le_lor_l; [lia| |].
    + apply Z.lor_nonneg. split; [apply Z.shiftl_nonneg; lia|done].
    + rewrite Z.shiftl_mul_pow2 by lia. lia.
Qed.

(** Without the header the decoder still undoes the encoder on a text of
    five bytes or more (and less than 65540): the first ciphertext bytes,
    read as a header, declare too much and the decoder falls back to the
    whole input. *)
Lemma roundtrip_without_header_long payload (buf out : list Z) :
  let n := length payload in
  is_text payload → (5 ≤ n)%nat → Z.of_nat n < 2 ^ 16 + 4 →
  (n ≤ length buf)%nat → (n < length out)%nat →
  ∃ enc out',
    encrypt_payload payload buf false = Some (Z.of_nat n, enc)
    ∧ tplink_kasa_decrypt enc (Z.of_nat n) out false = Some (Z.of_nat n, out')
    ∧ c_str out' = Some payload.
Proof.
  intros n Htext Hn5 Hn Hbuf Hout.
  assert (n = length payload) as Hndef by done. clearbody n.
  pose proof (encrypt_payload_spec payload buf false Htext) as Henc.
  simpl in Henc. rewrite <- Hndef in Henc.
  rewrite Henc by lia. clear Henc.
  set (tail := drop n (_ : list Z)).
  pose proof (encode_length cipher_key payload) as Hel.
  destruct payload as [|p0 [|p1 payload]]; [simpl in Hndef; lia..|].
  apply Forall_cons in Htext as [Hp0 Htext].
  apply Forall_cons in Htext as [Hp1 Htext].
  simpl in Hel, Hndef |- *.
  set (c0 := Z.lxor p0 cipher_key) in *.
  set (c1 := Z.lxor p1 c0) in *.
  assert (is_char c0) as Hc0 by (apply lxor_is_char; unfold is_char, cipher_key; lia).
  assert (is_char c1) as Hc1 by (apply lxor_is_char; unfold is_char in *; lia).
  assert (c0 ≠ 0 ∨ c1 ≠ 0) as Hne.
  { destruct (decide (c0 = 0)) as [Hz|]; [right|by left].
    subst c1. rewrite Hz, Z.lxor_0_r. lia. }
  destruct (Autokey.encode c1 payload) as [|c2 [|c3 rest]] eqn:Hrest;
    [simpl in Hel; lia..|].
  assert (Autokey.decode cipher_key (c0 :: c1 :: c2 :: c3 :: rest)
          = p0 :: p1 :: payload) as Hde.
  { rewrite <- Hrest. apply (decode_encode cipher_key (p0 :: p1 :: payload)). }
  eexists _, _. split; [f_equal; f_equal; lia|].
  pose proof (payload_length_large c0 c1 c2 c3 Hc0 Hc1 Hne).
  simpl.
  rewrite (decrypt_fallback c0 c1 c2 c3 (rest ++ tail) (Z.of_nat n) out false);
    [|lia|simpl; rewrite length_app; simpl in Hel; lia|lia|lia].
  split; [done|].
  rewrite c_str_terminated.
  replace (take (Z.to_nat (Z.of_nat n)) (c0 :: c1 :: c2 :: c3 :: rest ++ tail))
    with (c0 :: c1 :: c2 :: c3 :: rest).
  2:{ rewrite Nat2Z.id.
      change (c0 :: c1 :: c2 :: c3 :: rest ++ tail)
        with ((c0 :: c1 :: c2 :: c3 :: rest) ++ tail).
      rewrite take_app_length'; [done|]. simpl in *. lia. }
  rewrite Hde.
  assert (is_text (p0 :: p1 :: payload)) as Htext'
    by (apply Forall_cons; split; [done|]; apply Forall_cons; by split).
  rewrite fmap_char_chars by (by apply is_text_chars).
  unfold text_of. rewrite strlen_text by done.
  by rewrite Nat2Z.id, firstn_all.
Qed.

(** ** The stream listener *)

(** An event that differs from every event of an explicit trace. *)
Ltac not_in_trace :=
  let Hin := fresh "Hin" in
  intros Hin;
  repeat (apply elem_of_cons in Hin as [?|Hin]; [done|]);
  by apply elem_of_nil in Hin.

(** A pass that gets as far as the reply ends by shutting the connection
    down and closing it. *)
Lemma stream_pass_closes_after_reply parse print raw a x data trace raw' :
  0 <= on_accept a → on_recv a = Incoming (x :: data) →
  server_pass parse print SOCK_STREAM raw a = Some (trace, raw') →
  ∃ before, trace = before ++ [Ev_shutdown (on_accept a); Ev_close (on_accept a)].
Proof.
  intros Hc Hrecv. unfold server_pass. simpl.
  rewrite (proj2 (Z.ltb_ge _ _)) by lia.
  rewrite Hrecv. unfold receive, buffer_len.
  change (Z.to_nat (2000 - 1)) with 1999%nat.
  change (take 1999 (x :: data)) with (x :: take 1998 data).
  set (d := x :: take 1998 data).
  assert (0 < Z.of_nat (length d)) as Hd by (subst d; simpl; lia).
  cbn [fst snd].
  rewrite (proj2 (Z.ltb_ge _ _)) by lia.
  rewrite (proj2 (Z.eqb_neq _ _)) by lia.
  unfold respond.
  destruct (tplink_kasa_process_buffer _ _ _ _ _) as [r|]; [|done].
  cbn [mbind option_bind].
  destruct (send_all _ _ _ _) as [sent|]; [|done].
  cbn [mbind option_bind]. intros H. injection H as <- <-.
  by exists (Ev_accept (on_accept a) :: Ev_setsockopt (on_accept a)
             :: Ev_setsockopt (on_accept a) :: Ev_setsockopt (on_accept a)
             :: Ev_setsockopt (on_accept a)
             :: Ev_recv (on_accept a) (Z.of_nat (length d))
             :: Ev_process (reply_len r) :: sent).
Qed.

(** * The claims *)

(** C1 (the code departs from it). Without the header the round trip loses
    every message of one to four bytes: [tplink_kasa_encrypt] with the flag
    off emits the bare ciphertext, and [tplink_kasa_decrypt] with the flag
    off still takes an input of at most four bytes for an incomplete header
    and returns the empty string. *)
Theorem roundtrip_without_header_loses_short_messages payload (buf out : list Z) :
  let n := length payload in
  is_text payload → (1 ≤ n ≤ 4)%nat → (4 ≤ length buf)%nat → out ≠ [] →
  ∃ enc out',
    encrypt_payload payload buf false = Some (Z.of_nat n, enc)
    ∧ tplink_kasa_decrypt enc (Z.of_nat n) out false = Some (0, out')
    ∧ c_str out' = Some []
    ∧ c_str out' ≠ Some payload.
Proof.
  intros n Htext Hn Hbuf Hout.
  assert (n = length payload) as Hndef by done. clearbody n.
  pose proof (encrypt_payload_spec payload buf false Htext) as Henc.
  simpl in Henc. rewrite <- Hndef in Henc.
  rewrite Henc by lia. clear Henc.
  destruct out as [|x out]; [done|].
  eexists _, (0 :: out). split; [f_equal; f_equal; lia|].
  split; [|split; [done|]].
  - unfold tplink_kasa_decrypt, sizeof_payload_header.
    rewrite uint32_small by lia.
    rewrite (proj2 (Z.leb_le _ _)) by lia.
    by rewrite store_within by (simpl; lia).
  - simpl. destruct payload; [simpl in Hndef; lia|done].
Qed.

Lemma roundtrip_without_header_loses_short_messages_witness :
  ∃ enc out',
    encrypt_payload [123; 125] [7; 7; 7; 7; 7; 7; 7] false = Some (2, enc)
    ∧ tplink_kasa_decrypt enc 2 [7; 7; 7] false = Some (0, out')
    ∧ c_str out' = Some []
    ∧ c_str out' ≠ Some [123; 125].
Proof.
  apply (roundtrip_without_header_loses_short_messages
           [123; 125] [7; 7; 7; 7; 7; 7; 7] [7; 7; 7]);
    [vm_compute; repeat constructor | simpl; lia | simpl; lia | done].
Defined.

Example roundtrip_of_empty_object_without_header :
  encrypt_payload (JSONText.print (cJSON_Object [])) [7; 7; 7; 7; 7; 7; 7] false
  = Some (2, [208; 173; 0; 2; 7; 7; 7])
  ∧ tplink_kasa_decrypt [208; 173; 0; 2; 7; 7; 7] 2 [7; 7; 7] false
    = Some (0, [0; 7; 7]).
Proof. split; vm_compute; reflexivity. Qed.

(** C2 (the code departs from it). For a request with get_sysinfo under
    system the document that [tplink_kasa_process_buffer] serializes is the
    parsed template as it stands: the template has no state member under
    get_sysinfo, so the three additions go to [NULL], and the values they
    carry are the constants 0 rather than sensor readings.  The reply holds
    no temperature and no humidity. *)
Theorem sysinfo_reply_is_the_bare_template :
  sysinfo_response sysinfo_document = sysinfo_document
  ∧ (let sysinfo := cJSON_GetObjectItem sysinfo_document
                      (cJSON_GetObjectItem sysinfo_document (Some []) "system")
                      "get_sysinfo" in
     sysinfo = Some [0; 0]%nat
     ∧ cJSON_GetObjectItem sysinfo_document sysinfo "state" = None
     ∧ cJSON_GetObjectItem sysinfo_document sysinfo "temperature" = None
     ∧ cJSON_GetObjectItem sysinfo_document sysinfo "humidity" = None)
  ∧ (∀ parse print raw len flag,
       parse tplink_kasa_sysinfo = Some sysinfo_document →
       0 <= len < 2 ^ 31 → len < Z.of_nat (length raw) →
       ∃ blk text,
         decode_request raw len flag = Some (<[Z.to_nat len := 0]> raw, blk)
         ∧ c_str blk = Some text
         ∧ ∀ doc,
             parse text = Some doc →
             cJSON_HasObjectItem doc
               (cJSON_GetObjectItem doc (Some []) "system") "get_sysinfo" = true →
             tplink_kasa_process_buffer parse print raw len flag
             = (e ← encrypt_payload (print sysinfo_document)
                      (<[Z.to_nat len := 0]> raw) flag;
                Some {| reply_len := e.1; raw_after := e.2; json_block := blk |})).
Proof.
  split; [by vm_compute|]. split; [by vm_compute|].
  intros parse print raw len flag Htemplate Hlen Hraw.
  destruct (decode_request_total raw len flag Hlen Hraw) as (blk & text & Hd & Hstr).
  exists blk, text. split; [done|]. split; [done|].
  intros doc Hdoc Hsys.
  unfold tplink_kasa_process_buffer. rewrite Hd. simpl. rewrite Hstr. simpl.
  rewrite Hdoc, Hsys, Htemplate. unfold tplink_kasa_encrypt.
  by replace (sysinfo_response sysinfo_document) with sysinfo_document
    by by vm_compute.
Qed.

Lemma sysinfo_reply_is_the_bare_template_witness :
  ∃ blk text,
    decode_request [0; 0; 0; 2; 208; 173; 7; 7] 6 true
    = Some ([0; 0; 0; 2; 208; 173; 0; 7], blk)
    ∧ c_str blk = Some text
    ∧ ∀ doc,
        JSONText.parse text = Some doc →
        cJSON_HasObjectItem doc
          (cJSON_GetObjectItem doc (Some []) "system") "get_sysinfo" = true →
        tplink_kasa_process_buffer JSONText.parse JSONText.print
          [0; 0; 0; 2; 208; 173; 7; 7] 6 true
        = (e ← encrypt_payload (JSONText.print sysinfo_document)
                 [0; 0; 0; 2; 208; 173; 0; 7] true;
           Some {| reply_len := e.1; raw_after := e.2; json_block := blk |}).
Proof.
  apply (proj2 (proj2 sysinfo_reply_is_the_bare_template)
           JSONText.parse JSONText.print [0; 0; 0; 2; 208; 173; 7; 7] 6 true);
    [vm_compute; reflexivity | lia | simpl; lia].
Defined.

(** The request on the stream transport, run through the responder with the
    reference reader and printer: the reply decodes to the printed template. *)
Example process_buffer_sysinfo_request :
  ∃ raw r out,
    encrypt_payload get_sysinfo_request (replicate 2000 0) true = Some (33, raw)
    ∧ tplink_kasa_process_buffer JSONText.parse JSONText.print raw 33 true = Some r
    ∧ tplink_kasa_decrypt (raw_after r) (reply_len r) (replicate 2000 0) true
      = Some (reply_len r - 4, out)
    ∧ c_str out = Some (JSONText.print sysinfo_document).
Proof.
  eexists _, _, _.
  split; [vm_compute; reflexivity|].
  split; [vm_compute; reflexivity|].
  split; vm_compute; reflexivity.
Qed.

(** C3. On an input longer than the header whose declared length exceeds
    the bytes that remain after the header, [tplink_kasa_decrypt] takes the
    whole input as payload from offset 0: it decodes all [encrypted_len]
    bytes, terminates them and returns [encrypted_len]. *)
Theorem decrypt_overlong_header_decodes_everything b0 b1 b2 b3 rest len out flag :
  let enc := b0 :: b1 :: b2 :: b3 :: rest in
  4 < len < 2 ^ 31 →
  len <= Z.of_nat (length enc) →
  len - 4 < payload_length_of_bytes b0 b1 b2 b3 →
  len < Z.of_nat (length out) →
  tplink_kasa_decrypt enc len out flag
  = Some (len, (char <$> Autokey.decode cipher_key (take (Z.to_nat len) enc))
               ++ 0 :: drop (S (Z.to_nat len)) out).
Proof. apply decrypt_fallback. Qed.

Lemma decrypt_overlong_header_decodes_everything_witness :
  tplink_kasa_decrypt [208; 242; 148; 251; 148; 182] 6 [7; 7; 7; 7; 7; 7; 7; 7] false
  = Some (6, [123; 34; 102; 111; 111; 34; 0; 7]).
Proof.
  apply (decrypt_overlong_header_decodes_everything
           208 242 148 251 [148; 182] 6 [7; 7; 7; 7; 7; 7; 7; 7] false);
    [lia | simpl; lia | vm_compute; reflexivity | simpl; lia].
Defined.

(** C4 (the code departs from it). A buffer whose header declares more than
    the bytes supplied is read within its first [encrypted_len] bytes, and
    the call returns [encrypted_len]; but the terminator is stored at index
    [encrypted_len] of the output array.  Into an array of [encrypted_len]
    cells, which is what [tplink_kasa_process_buffer] allocates, the call
    stores past the end: the cell after the block of [json_string] is
    overwritten. *)
Theorem decrypt_overruns_block_of_request_size b0 b1 b2 b3 rest len flag :
  let raw := b0 :: b1 :: b2 :: b3 :: rest in
  4 < len < 2 ^ 31 → len < Z.of_nat (length raw) →
  len - 4 < payload_length_of_bytes b0 b1 b2 b3 →
  (∃ out', tplink_kasa_decrypt (take (Z.to_nat len) raw) len
             (replicate (Z.to_nat len + 1) 0) flag = Some (len, out'))
  ∧ tplink_kasa_decrypt raw len (replicate (Z.to_nat len) 0) flag = None
  ∧ ∃ raw' blk, decode_request raw len flag = Some (raw', blk)
                ∧ red_zone_intact len blk = false.
Proof.
  intros raw Hlen Hraw Hdecl. split; [|split].
  - assert (take (Z.to_nat len) raw
            = b0 :: b1 :: b2 :: b3 :: take (Z.to_nat len - 4) rest) as ->.
    { replace (Z.to_nat len) with (S (S (S (S (Z.to_nat len - 4))))) at 1 by lia.
      done. }
    subst raw. simpl in Hraw. eexists.
    apply decrypt_fallback; [done| |done|].
    + simpl. rewrite length_take. lia.
    + rewrite length_replicate. lia.
  - apply decrypt_fallback_overflow; [done|subst raw; lia|done|].
    rewrite length_replicate. lia.
  - destruct (decode_request_fallback b0 b1 b2 b3 rest len flag Hlen Hraw Hdecl)
      as (raw' & blk & Hd & _ & Hcell).
    exists raw', blk. split; [done|].
    unfold red_zone_intact. rewrite Hcell. done.
Qed.

Lemma decrypt_overruns_block_of_request_size_witness :
  (∃ out', tplink_kasa_decrypt [208; 242; 148; 251; 148; 182] 6
             [0; 0; 0; 0; 0; 0; 0] false = Some (6, out'))
  ∧ tplink_kasa_decrypt [208; 242; 148; 251; 148; 182; 9] 6 [0; 0; 0; 0; 0; 0] false
    = None
  ∧ ∃ raw' blk,
      decode_request [208; 242; 148; 251; 148; 182; 9] 6 false = Some (raw', blk)
      ∧ red_zone_intact 6 blk = false.
Proof.
  apply (decrypt_overruns_block_of_request_size 208 242 148 251 [148; 182; 9] 6 false);
    [lia | simpl; lia | vm_compute; reflexivity].
Defined.

(** C5. [tplink_kasa_decrypt] gives the same result whether its flag is
    true or false, while [tplink_kasa_encrypt] follows its flag: with the
    flag set the output is the four header bytes and then the ciphertext and
    the length counts both, without it the output is the ciphertext alone
    and the length is that of the ciphertext. *)
Theorem decrypt_ignores_flag_encrypt_follows_it :
  (∀ enc len out,
     tplink_kasa_decrypt enc len out true = tplink_kasa_decrypt enc len out false)
  ∧ (∀ (print : cJSON → list Z) json (buf : list Z),
       let payload := print json in
       let n := length payload in
       is_text payload → Z.of_nat n + 4 < 2 ^ 31 → (n + 4 ≤ length buf)%nat →
       (∃ out, tplink_kasa_encrypt print json buf true = Some (Z.of_nat n + 4, out)
               ∧ take (n + 4) out
                 = header_bytes (Z.of_nat n) ++ Autokey.encode cipher_key payload)
       ∧ (∃ out, tplink_kasa_encrypt print json buf false = Some (Z.of_nat n, out)
                 ∧ take n out = Autokey.encode cipher_key payload)).
Proof.
  split; [done|].
  intros print json buf payload n Htext Hn Hbuf. unfold tplink_kasa_encrypt.
  fold payload. split.
  - rewrite (encrypt_payload_spec payload buf true) by (done || (fold n; lia)).
    fold n. eexists. split; [f_equal; f_equal; lia|].
    rewrite !app_assoc, take_app_length'; [done|].
    rewrite length_app, encode_length. simpl. fold n. lia.
  - rewrite (encrypt_payload_spec payload buf false) by (done || (fold n; lia)).
    fold n. eexists. split; [f_equal; f_equal; lia|].
    simpl take at 2. simpl app.
    rewrite take_app_length'; [done|]. by rewrite encode_length.
Qed.

Lemma decrypt_ignores_flag_encrypt_follows_it_witness :
  (∃ out, tplink_kasa_encrypt JSONText.print (cJSON_Object []) [7; 7; 7; 7; 7; 7; 7] true
          = Some (6, out)
          ∧ take 6 out = [0; 0; 0; 2; 208; 173])
  ∧ (∃ out, tplink_kasa_encrypt JSONText.print (cJSON_Object []) [7; 7; 7; 7; 7; 7; 7] false
            = Some (2, out)
            ∧ take 2 out = [208; 173]).
Proof.
  apply (proj2 decrypt_ignores_flag_encrypt_follows_it
           JSONText.print (cJSON_Object []) [7; 7; 7; 7; 7; 7; 7]).
  - vm_compute. repeat constructor.
  - vm_compute. reflexivity.
  - simpl. lia.
Defined.

(** C6. A ciphertext shorter than the four-byte header decodes to nothing:
    [tplink_kasa_decrypt] returns 0 and leaves the empty string in the
    output array.  [tplink_kasa_process_buffer], whose parser rejects the
    empty text, then returns 0 as well: on one to three received bytes its
    block has the cell for the empty string, and the byte behind the block
    is left as it was. *)
Theorem decrypt_short_input_is_empty enc len out flag :
  0 <= len < 4 → out ≠ [] →
  tplink_kasa_decrypt enc len out flag = Some (0, <[0%nat := 0]> out)
  ∧ c_str (<[0%nat := 0]> out) = Some []
  ∧ ∀ parse print raw,
      1 <= len → parse [] = None → len < Z.of_nat (length raw) →
      tplink_kasa_process_buffer parse print raw len flag
      = Some {| reply_len := 0; raw_after := <[Z.to_nat len := 0]> raw;
                json_block := <[0%nat := 0]> (replicate (Z.to_nat len) 0)
                              ++ [red_zone] |}.
Proof.
  intros Hlen Hout. split; [|split].
  - unfold tplink_kasa_decrypt, sizeof_payload_header.
    rewrite uint32_small by lia. rewrite (proj2 (Z.leb_le _ _)) by lia.
    rewrite store_within by (destruct out; simpl; [done|lia]). done.
  - destruct out; done.
  - intros parse print raw Hpos Hparse Hraw.
    destruct (decode_request_in_block raw len flag)
      as (n & text_block & text & Hexact & Hstr & Hd & Hempty); [lia..|].
    unfold tplink_kasa_decrypt, sizeof_payload_header in Hexact.
    rewrite uint32_small in Hexact by lia.
    rewrite (proj2 (Z.leb_le _ _)) in Hexact by lia.
    rewrite store_within in Hexact by (rewrite length_replicate; lia).
    injection Hexact as <- <-.
    unfold tplink_kasa_process_buffer. rewrite Hd.
    cbn [mbind option_bind fst snd].
    rewrite (c_str_app _ [red_zone] _ Hstr). rewrite Hempty by lia.
    cbn [mbind option_bind]. by rewrite Hparse.
Qed.

Lemma decrypt_short_input_is_empty_witness :
  tplink_kasa_decrypt [208; 173] 2 [7; 7; 7] false = Some (0, [0; 7; 7])
  ∧ c_str [0; 7; 7] = Some []
  ∧ ∀ parse print raw,
      1 <= 2 → parse [] = None → 2 < Z.of_nat (length raw) →
      tplink_kasa_process_buffer parse print raw 2 false
      = Some {| reply_len := 0; raw_after := <[2%nat := 0]> raw;
                json_block := [0; 0; red_zone] |}.
Proof.
  apply (decrypt_short_input_is_empty [208; 173] 2 [7; 7; 7] false); [lia|done].
Defined.

(** C7. The key starts at 171.  In [tplink_kasa_decrypt] every plaintext
    byte is the ciphertext byte XOR the key in force, and the key in force
    after the first position is the ciphertext byte consumed just before; in
    [tplink_kasa_encrypt] every ciphertext byte is the plaintext byte XOR the
    key in force, and the key in force after the first position is the
    ciphertext byte produced just before. *)
Theorem autokey_key_is_previous_ciphertext_byte :
  cipher_key = 171
  ∧ (∀ b0 b1 b2 b3 rest len (out : list Z) flag,
       let enc := b0 :: b1 :: b2 :: b3 :: rest in
       let hl := (decrypt_window b0 b1 b2 b3 len).1 in
       let L := (decrypt_window b0 b1 b2 b3 len).2 in
       4 < len < 2 ^ 31 → len <= Z.of_nat (length enc) →
       len < Z.of_nat (length out) →
       ∃ out', tplink_kasa_decrypt enc len out flag = Some (L, out')
               ∧ let ciphertext := take (Z.to_nat L) (drop (Z.to_nat hl) enc) in
                 length ciphertext = Z.to_nat L
                 ∧ ∀ i c, ciphertext !! i = Some c →
                     out' !! i = Some (char (Z.lxor c (key_at cipher_key ciphertext i))))
  ∧ (∀ payload (buf : list Z) (flag : bool),
       let n := length payload in
       let hl : nat := if flag then 4%nat else 0%nat in
       is_text payload → Z.of_nat n + 4 < 2 ^ 31 → (n + 4 ≤ length buf)%nat →
       ∃ out', encrypt_payload payload buf flag = Some (Z.of_nat (n + hl), out')
               ∧ let ciphertext := take n (drop hl out') in
                 length ciphertext = n
                 ∧ ∀ i p, payload !! i = Some p →
                     ciphertext !! i = Some (Z.lxor p (key_at cipher_key ciphertext i))).
Proof.
  split; [done|]. split.
  - intros b0 b1 b2 b3 rest len out flag enc hl L Hlen Henc Hout.
    destruct (decrypt_window_bounds b0 b1 b2 b3 len Hlen) as (HL0 & Hhl & HhlL).
    fold hl L in HL0, Hhl, HhlL.
    eexists. split; [apply decrypt_long; done || lia|].
    intros ciphertext.
    assert (length ciphertext = Z.to_nat L) as Hct.
    { subst ciphertext. rewrite length_take, length_drop. lia. }
    split; [done|]. intros i c Hi.
    rewrite lookup_app_l
      by (rewrite length_fmap, decode_length; by apply lookup_lt_Some in Hi).
    by rewrite list_lookup_fmap, (decode_lookup _ _ _ _ Hi).
  - intros payload buf flag n hl Htext Hn Hbuf.
    assert (hl = 0 ∨ hl = 4)%nat as Hhl by (subst hl; destruct flag; lia).
    eexists. split; [apply encrypt_payload_spec; done || lia|].
    fold n hl. intros ciphertext.
    assert (ciphertext = Autokey.encode cipher_key payload) as ->.
    { subst ciphertext.
      rewrite drop_app_length'
        by (rewrite length_take; unfold header_bytes; simpl; lia).
      rewrite take_app_length'; [done|]. by rewrite encode_length. }
    split; [by rewrite encode_length|].
    intros i p Hi. by apply encode_lookup.
Qed.

Lemma autokey_key_is_previous_ciphertext_byte_witness :
  (∃ out', tplink_kasa_decrypt [0; 0; 0; 2; 208; 173] 6 [7; 7; 7; 7; 7; 7; 7] true
           = Some (2, out')
           ∧ let ciphertext := [208; 173] in
             length ciphertext = 2%nat
             ∧ ∀ i c, ciphertext !! i = Some c →
                 out' !! i = Some (char (Z.lxor c (key_at cipher_key ciphertext i))))
  ∧ (∃ out', encrypt_payload [123; 125] [7; 7; 7; 7; 7; 7; 7] false = Some (2, out')
             ∧ let ciphertext := take 2 (drop 0 out') in
               length ciphertext = 2%nat
               ∧ ∀ i p, [123; 125] !! i = Some p →
                   ciphertext !! i = Some (Z.lxor p (key_at cipher_key ciphertext i))).
Proof.
  split.
  - apply (proj1 (proj2 autokey_key_is_previous_ciphertext_byte)
             0 0 0 2 [208; 173] 6 [7; 7; 7; 7; 7; 7; 7] true);
      [lia | simpl; lia | simpl; lia].
  - apply (proj2 (proj2 autokey_key_is_previous_ciphertext_byte)
             [123; 125] [7; 7; 7; 7; 7; 7; 7] false);
      [vm_compute; repeat constructor | vm_compute; reflexivity | simpl; lia].
Defined.

(** C8 (amended). A received buffer whose decoding stays inside the block
    (one to four bytes, or a header that declares no more than the bytes
    behind it) and whose decoded text does not parse, or parses to a
    document without a get_sysinfo field under system, names compared
    without regard to case, makes [tplink_kasa_process_buffer] return 0 with
    [raw_buffer] holding no reply: only the terminator at
    [raw_buffer[buffer_len]] was stored.  The text is the one the decoder
    leaves in an array of exactly [buffer_len] cells, and the byte behind
    the block is left as it was. *)
Theorem process_buffer_no_reply parse print raw len flag :
  1 <= len < 2 ^ 31 → len < Z.of_nat (length raw) →
  len <= 4 ∨ declared_length raw <= len - 4 →
  ∃ n text_block text,
    tplink_kasa_decrypt (<[Z.to_nat len := 0]> raw) len
      (replicate (Z.to_nat len) 0) flag = Some (n, text_block)
    ∧ c_str text_block = Some text
    ∧ (parse text = None
       ∨ (∃ doc, parse text = Some doc
                 ∧ has_field_under same_ignoring_case "system" "get_sysinfo" doc
                   = false) →
       tplink_kasa_process_buffer parse print raw len flag
       = Some {| reply_len := 0; raw_after := <[Z.to_nat len := 0]> raw;
                 json_block := text_block ++ [red_zone] |}).
Proof.
  intros Hlen Hraw Hfit.
  destruct (decode_request_in_block raw len flag Hlen Hraw Hfit)
    as (n & text_block & text & Hexact & Hstr & Hd & _).
  exists n, text_block, text. split; [done|]. split; [done|].
  unfold tplink_kasa_process_buffer. rewrite Hd.
  cbn [mbind option_bind fst snd].
  rewrite (c_str_app _ [red_zone] _ Hstr). cbn [mbind option_bind].
  intros [Hnone|(doc & Hdoc & Hno)].
  - by rewrite Hnone.
  - by rewrite Hdoc, (lookup_turns_down doc Hno).
Qed.

Lemma process_buffer_no_reply_witness :
  ∃ n text_block text,
    tplink_kasa_decrypt (<[Z.to_nat 13 := 0]> framed_foo_buffer) 13
      (replicate (Z.to_nat 13) 0) true = Some (n, text_block)
    ∧ c_str text_block = Some text
    ∧ (JSONText.parse text = None
       ∨ (∃ doc, JSONText.parse text = Some doc
                 ∧ has_field_under same_ignoring_case "system" "get_sysinfo" doc
                   = false) →
       tplink_kasa_process_buffer JSONText.parse JSONText.print framed_foo_buffer 13 true
       = Some {| reply_len := 0; raw_after := <[Z.to_nat 13 := 0]> framed_foo_buffer;
                 json_block := text_block ++ [red_zone] |}).
Proof.
  apply (process_buffer_no_reply JSONText.parse JSONText.print framed_foo_buffer 13 true);
    [lia | simpl; lia | right; vm_compute; discriminate].
Defined.

(** C8 as the description words it fails on names in capitals: the
    document below has no member named system, yet the lookups of cJSON
    find SYSTEM and GET_SYSINFO and the responder replies with 647 bytes.
    The request is framed, and its decoding stays inside an array of
    exactly 33 cells. *)
Lemma process_buffer_replies_to_names_in_capitals :
  let doc :=
    cJSON_Object [("SYSTEM", cJSON_Object [("GET_SYSINFO", cJSON_Object [])])] in
  ∃ raw r,
    encrypt_payload capitals_request (replicate 2000 0) true = Some (33, raw)
    ∧ tplink_kasa_decrypt raw 33 (replicate 33 0) true
      = Some (29, capitals_request ++ [0; 0; 0; 0])
    ∧ JSONText.parse capitals_request = Some doc
    ∧ has_field_under same_as_written "system" "get_sysinfo" doc = false
    ∧ tplink_kasa_process_buffer JSONText.parse JSONText.print raw 33 true = Some r
    ∧ reply_len r = 647.
Proof.
  eexists _, _.
  split; [vm_compute; reflexivity|].
  split; [vm_compute; reflexivity|].
  split; [vm_compute; reflexivity|].
  split; [vm_compute; reflexivity|].
  split; vm_compute; reflexivity.
Qed.

(** The unrecognised request run through the responder with the reference
    reader and printer, framed as the stream listener receives it. *)
Example process_buffer_unrecognised_request_framed :
  tplink_kasa_process_buffer JSONText.parse JSONText.print framed_foo_buffer 13 true
  = Some {| reply_len := 0;
            raw_after := <[13%nat := 0]> framed_foo_buffer;
            json_block := [123; 34; 102; 111; 111; 34; 58; 49; 125; 0; 0; 0; 0;
                           red_zone] |}.
Proof. vm_compute. reflexivity. Qed.

(** The same request without the header, as a datagram carries it: the
    decoder takes all nine bytes as payload and its terminator replaces the
    red-zone cell, the byte behind the nine of the block (see C4). *)
Example process_buffer_unrecognised_request :
  tplink_kasa_process_buffer JSONText.parse JSONText.print
    [208; 242; 148; 251; 148; 182; 140; 189; 192; 9] 9 false
  = Some {| reply_len := 0;
            raw_after := [208; 242; 148; 251; 148; 182; 140; 189; 192; 0];
            json_block := [123; 34; 102; 111; 111; 34; 58; 49; 125; 0] |}
  ∧ red_zone_intact 9 [123; 34; 102; 111; 111; 34; 58; 49; 125; 0] = false.
Proof. split; vm_compute; reflexivity. Qed.

(** C9 (the code departs from it). On the stream transport a pass whose
    read returns zero bytes, or fails, goes back to the head of the loop
    straight after the read: the accepted connection is neither shut down
    nor closed, and is still open when the loop accepts again. *)
Theorem stream_pass_leaves_connection_open parse print raw a :
  0 <= on_accept a →
  on_recv a = Incoming [] ∨ on_recv a = Incoming_error →
  ∃ trace,
    server_pass parse print SOCK_STREAM raw a = Some (trace, raw)
    ∧ (Ev_shutdown (on_accept a) ∉ trace)
    ∧ (Ev_close (on_accept a) ∉ trace)
    ∧ open_connections trace [] = [on_accept a]
    ∧ ∀ script,
        server_loop parse print SOCK_STREAM raw (a :: script)
        = (trace ++.) <$> server_loop parse print SOCK_STREAM raw script.
Proof.
  intros Hc Hrecv.
  assert (∃ rx, server_pass parse print SOCK_STREAM raw a
                = Some ([Ev_accept (on_accept a); Ev_setsockopt (on_accept a);
                         Ev_setsockopt (on_accept a); Ev_setsockopt (on_accept a);
                         Ev_setsockopt (on_accept a); Ev_recv (on_accept a) rx], raw))
    as [rx Hpass].
  { unfold server_pass. simpl.
    rewrite (proj2 (Z.ltb_ge _ _)) by lia.
    destruct Hrecv as [-> | ->]; simpl; eauto. }
  eexists. split; [exact Hpass|].
  split; [not_in_trace|]. split; [not_in_trace|].
  split.
  - simpl. by rewrite (proj2 (Z.ltb_ge _ _)) by lia.
  - intros script. simpl. rewrite Hpass. simpl.
    by destruct (server_loop parse print SOCK_STREAM raw script).
Qed.

Lemma stream_pass_leaves_connection_open_witness :
  ∃ trace,
    server_pass JSONText.parse JSONText.print SOCK_STREAM [7; 7; 7]
      {| on_recvfrom := Incoming_error; on_accept := 3; on_recv := Incoming [];
         on_sendto := 0; on_send := [] |}
    = Some (trace, [7; 7; 7])
    ∧ (Ev_shutdown 3 ∉ trace)
    ∧ (Ev_close 3 ∉ trace)
    ∧ open_connections trace [] = [3]
    ∧ ∀ script,
        server_loop JSONText.parse JSONText.print SOCK_STREAM [7; 7; 7]
          ({| on_recvfrom := Incoming_error; on_accept := 3; on_recv := Incoming [];
              on_sendto := 0; on_send := [] |} :: script)
        = (trace ++.) <$> server_loop JSONText.parse JSONText.print SOCK_STREAM
                            [7; 7; 7] script.
Proof.
  apply (stream_pass_leaves_connection_open JSONText.parse JSONText.print [7; 7; 7]
           {| on_recvfrom := Incoming_error; on_accept := 3; on_recv := Incoming [];
              on_sendto := 0; on_send := [] |});
    [simpl; lia | left; reflexivity].
Defined.

Example two_clients_that_send_nothing :
  server_loop JSONText.parse JSONText.print SOCK_STREAM (replicate 2000 0)
    [ {| on_recvfrom := Incoming_error; on_accept := 54; on_recv := Incoming [];
         on_sendto := 0; on_send := [] |};
      {| on_recvfrom := Incoming_error; on_accept := 55; on_recv := Incoming_error;
         on_sendto := 0; on_send := [] |} ]
  = Some [Ev_accept 54; Ev_setsockopt 54; Ev_setsockopt 54; Ev_setsockopt 54;
          Ev_setsockopt 54; Ev_recv 54 0;
          Ev_accept 55; Ev_setsockopt 55; Ev_setsockopt 55; Ev_setsockopt 55;
          Ev_setsockopt 55; Ev_recv 55 (-1)].
Proof. vm_compute. reflexivity. Qed.

(** C10. Whenever [tplink_kasa_decrypt] returns a length [L > 0] it has
    stored the terminator at [decrypted_payload[L]], so the output array has
    at least [L + 1] cells; on the truncation path [L] is [encrypted_len], the
    call succeeds exactly when the output array has [encrypted_len + 1]
    cells, and in [tplink_kasa_process_buffer], whose block has
    [buffer_len] cells, the terminator lands on the cell after the block. *)
Theorem decrypt_writes_one_more_than_it_returns :
  (∀ enc len out flag L out',
     tplink_kasa_decrypt enc len out flag = Some (L, out') → 0 < L →
     L + 1 <= Z.of_nat (length out)
     ∧ out' !! Z.to_nat L = Some 0
     ∧ drop (Z.to_nat (L + 1)) out' = drop (Z.to_nat (L + 1)) out)
  ∧ (∀ b0 b1 b2 b3 rest len out flag,
       let enc := b0 :: b1 :: b2 :: b3 :: rest in
       4 < len < 2 ^ 31 → len <= Z.of_nat (length enc) →
       len - 4 < payload_length_of_bytes b0 b1 b2 b3 →
       (len + 1 <= Z.of_nat (length out) →
        ∃ out', tplink_kasa_decrypt enc len out flag = Some (len, out'))
       ∧ (Z.of_nat (length out) < len + 1 →
          tplink_kasa_decrypt enc len out flag = None))
  ∧ (∀ b0 b1 b2 b3 rest len flag,
       let raw := b0 :: b1 :: b2 :: b3 :: rest in
       4 < len < 2 ^ 31 → len < Z.of_nat (length raw) →
       len - 4 < payload_length_of_bytes b0 b1 b2 b3 →
       ∃ raw' blk, decode_request raw len flag = Some (raw', blk)
                   ∧ Z.of_nat (length blk) = len + 1
                   ∧ blk !! Z.to_nat len = Some 0).
Proof.
  split; [|split].
  - intros enc len out flag L out' H HL.
    unfold tplink_kasa_decrypt in H.
    destruct (uint32 len <=? sizeof_payload_header).
    { destruct (store out 0 0); simpl in H; [|done]. injection H as <- _. lia. }
    destruct (load enc 0) as [b0|]; [|done].
    destruct (load enc 1) as [b1|]; [|done].
    destruct (load enc 2) as [b2|]; [|done].
    destruct (load enc 3) as [b3|]; [|done].
    simpl in H.
    destruct (decrypt_window b0 b1 b2 b3 len) as [hl pl] eqn:Hw.
    destruct (decrypt_loop enc hl (Z.to_nat pl) 0 cipher_key out)
      as [out1|] eqn:Hloop; [|done].
    simpl in H.
    destruct (store out1 pl 0) as [out2|] eqn:Hst; [|done].
    simpl in H. injection H as <- <-.
    pose proof (decrypt_loop_tail _ _ _ _ _ _ _ Hloop) as Htail.
    apply decrypt_loop_length in Hloop.
    apply store_Some_inv in Hst as [Hpl ->].
    assert (0 <= pl < 2 ^ 32) as Hrange.
    { unfold decrypt_window in Hw.
      pose proof (payload_length_range b0 b1 b2 b3).
      destruct (_ <? _); injection Hw as <- <-; [|done].
      unfold uint32. apply Z.mod_pos_bound. lia. }
    assert (int32 pl = pl) as Heq.
    { unfold int32 in *.
      destruct (decide (pl < 2 ^ 31)); [rewrite Z.mod_small; lia|].
      exfalso.
      replace (pl + 2 ^ 31) with (pl - 2 ^ 31 + 1 * 2 ^ 32) in HL by lia.
      rewrite Z.mod_add, Z.mod_small in HL; lia. }
    rewrite Heq. split; [lia|].
    change (char 0) with 0. split; [apply list_lookup_insert_eq; lia|].
    rewrite drop_insert_lt by lia.
    replace (Z.to_nat (pl + 1)) with ((Z.to_nat 0 + Z.to_nat pl) + 1)%nat by lia.
    by rewrite <- (drop_drop out1), <- (drop_drop out), Htail.
  - intros b0 b1 b2 b3 rest len out flag enc Hlen Henc Hdecl. split.
    + intros Hout. eexists. apply decrypt_fallback; done || lia.
    + intros Hout. apply decrypt_fallback_overflow; done || lia.
  - apply decode_request_fallback.
Qed.

Lemma decrypt_writes_one_more_than_it_returns_witness :
  (∃ out', tplink_kasa_decrypt [208; 242; 148; 251; 148; 182] 6
             [7; 7; 7; 7; 7; 7; 7] true = Some (6, out'))
  ∧ tplink_kasa_decrypt [208; 242; 148; 251; 148; 182] 6
      [7; 7; 7; 7; 7; 7] true = None.
Proof.
  pose proof (proj1 (proj2 decrypt_writes_one_more_than_it_returns)
                208 242 148 251 [148; 182] 6) as H.
  split.
  - apply (H [7; 7; 7; 7; 7; 7; 7] true);
      [lia | simpl; lia | vm_compute; reflexivity | simpl; lia].
  - apply (H [7; 7; 7; 7; 7; 7] true);
      [lia | simpl; lia | vm_compute; reflexivity | simpl; lia].
Defined.

(** * Further properties of the code *)

(** ** The decoder *)

(** X1. On a well-formed frame (more than four bytes, declared length at
    most the bytes after the header) [tplink_kasa_decrypt] returns the
    declared length and the decoding of exactly that many bytes after the
    header, terminated; bytes of the input after the declared payload play
    no part. *)
Theorem decrypt_well_formed_frame b0 b1 b2 b3 rest len (out : list Z) flag :
  let enc := b0 :: b1 :: b2 :: b3 :: rest in
  let d := payload_length_of_bytes b0 b1 b2 b3 in
  4 < len < 2 ^ 31 → len <= Z.of_nat (length enc) →
  d <= len - 4 → d < Z.of_nat (length out) →
  tplink_kasa_decrypt enc len out flag
  = Some (d, (char <$> Autokey.decode cipher_key (take (Z.to_nat d) rest))
             ++ 0 :: drop (S (Z.to_nat d)) out).
Proof.
  intros enc d Hlen Henc Hd Hout.
  pose proof (decrypt_long b0 b1 b2 b3 rest len out flag) as H.
  destruct (decrypt_window_cases b0 b1 b2 b3 len Hlen) as [[? _]|[_ Hw]];
    [subst d; lia|].
  rewrite Hw in H. simpl in H. rewrite drop_0 in H. apply H; done.
Qed.

Lemma decrypt_well_formed_frame_witness :
  tplink_kasa_decrypt [0; 0; 0; 2; 208; 173; 99; 99] 8 [7; 7; 7; 7] false
  = Some (2, [123; 125; 0; 7]).
Proof.
  apply (decrypt_well_formed_frame 0 0 0 2 [208; 173; 99; 99] 8 [7; 7; 7; 7] false);
    [lia | simpl; lia | vm_compute; discriminate | vm_compute; reflexivity].
Defined.

(** X2. With the header on both sides decoding undoes encoding, for every
    serialized text including the empty one: [tplink_kasa_decrypt] applied
    to the frame that [tplink_kasa_encrypt] produced returns the length of
    the text and leaves the text as a C string in the output array. *)
Theorem codec_roundtrip_with_header (print : cJSON → list Z) json (buf out : list Z) :
  let payload := print json in
  let n := length payload in
  is_text payload → Z.of_nat n + 4 < 2 ^ 31 →
  (n + 4 ≤ length buf)%nat → (n < length out)%nat →
  ∃ enc out',
    tplink_kasa_encrypt print json buf true = Some (Z.of_nat n + 4, enc)
    ∧ tplink_kasa_decrypt enc (Z.of_nat n + 4) out true = Some (Z.of_nat n, out')
    ∧ c_str out' = Some payload.
Proof. intros payload n. apply roundtrip_with_header. Qed.

Lemma codec_roundtrip_with_header_witness :
  ∃ enc out',
    tplink_kasa_encrypt JSONText.print (cJSON_Array [cJSON_Number 7])
      [9; 9; 9; 9; 9; 9; 9; 9] true = Some (7, enc)
    ∧ tplink_kasa_decrypt enc 7 [9; 9; 9; 9; 9] true = Some (3, out')
    ∧ c_str out' = Some [91; 55; 93].
Proof.
  apply (codec_roundtrip_with_header JSONText.print (cJSON_Array [cJSON_Number 7])
           [9; 9; 9; 9; 9; 9; 9; 9] [9; 9; 9; 9; 9]);
    [vm_compute; repeat constructor | vm_compute; reflexivity
    | vm_compute; lia | vm_compute; lia].
Defined.

(** X3. Without the header on either side decoding still undoes encoding
    for a text of 5 to 65539 bytes: the first four ciphertext bytes, taken
    for a header, declare more than the input holds, and the decoder falls
    back to the whole input. *)
Theorem codec_roundtrip_without_header (print : cJSON → list Z) json (buf out : list Z) :
  let payload := print json in
  let n := length payload in
  is_text payload → (5 ≤ n)%nat → Z.of_nat n < 2 ^ 16 + 4 →
  (n ≤ length buf)%nat → (n < length out)%nat →
  ∃ enc out',
    tplink_kasa_encrypt print json buf false = Some (Z.of_nat n, enc)
    ∧ tplink_kasa_decrypt enc (Z.of_nat n) out false = Some (Z.of_nat n, out')
    ∧ c_str out' = Some payload.
Proof. intros payload n. apply roundtrip_without_header_long. Qed.

Lemma codec_roundtrip_without_header_witness :
  ∃ enc out',
    tplink_kasa_encrypt JSONText.print (cJSON_Array [cJSON_Number 123])
      [9; 9; 9; 9; 9; 9; 9; 9] false = Some (5, enc)
    ∧ tplink_kasa_decrypt enc 5 [9; 9; 9; 9; 9; 9] false = Some (5, out')
    ∧ c_str out' = Some [91; 49; 50; 51; 93].
Proof.
  apply (codec_roundtrip_without_header JSONText.print
           (cJSON_Array [cJSON_Number 123]) [9; 9; 9; 9; 9; 9; 9; 9]
           [9; 9; 9; 9; 9; 9]);
    [vm_compute; repeat constructor | vm_compute; lia | vm_compute; reflexivity
    | vm_compute; lia | vm_compute; lia].
Defined.

(** X4. The header survives the wire: the four bytes that the encoder
    stores for a length below 2^32 are bytes, and the decoder reads that
    length back from them. *)
Theorem header_bytes_roundtrip L :
  0 <= L < 2 ^ 32 →
  Forall is_char (header_bytes L)
  ∧ declared_length (header_bytes L) = L.
Proof.
  intros HL. split.
  - unfold header_bytes. repeat (apply Forall_cons; split);
      auto using header_byte_is_char, Forall_nil_2.
  - by apply payload_length_of_header_bytes.
Qed.

Lemma header_bytes_roundtrip_witness :
  Forall is_char (header_bytes 66051) ∧ declared_length (header_bytes 66051) = 66051.
Proof. apply (header_bytes_roundtrip 66051). lia. Defined.

(** ** The encoder and its output array *)

Lemma encrypt_loop_overflow payload (hl : nat) n (i : nat) key (out : buffer) :
  (i + n ≤ length payload)%nat → (i + hl ≤ length out)%nat →
  (length out < i + hl + n)%nat →
  encrypt_loop payload (Z.of_nat hl) n (Z.of_nat i) key out = None.
Proof.
  revert i key out. induction n as [|n IH]; intros i key out Hp Hi Hout.
  - lia.
  - simpl. rewrite load_lookup.
    destruct (payload !! i) as [p|] eqn:Hpi;
      [|apply lookup_ge_None in Hpi; lia].
    simpl. rewrite <- Nat2Z.inj_add.
    destruct (decide (i + hl < length out)%nat) as [Hlt|Hge].
    + rewrite store_in by lia. simpl.
      replace (Z.of_nat i + 1) with (Z.of_nat (S i)) by lia.
      apply IH; rewrite ?length_insert; lia.
    + by rewrite store_out by lia.
Qed.

Lemma store_header_short (buf : list Z) h0 h1 h2 h3 :
  (length buf < 4)%nat →
  (out ← store buf 0 h0; out ← store out 1 h1; out ← store out 2 h2; store out 3 h3)
  = None.
Proof.
  intros Hlen.
  destruct buf as [|x0 [|x1 [|x2 [|x3 buf]]]]; simpl in Hlen; try lia; done.
Qed.

Lemma encrypt_payload_overflow payload (buf : list Z) (flag : bool) :
  let n := length payload in
  let hl : nat := if flag then 4%nat else 0%nat in
  is_text payload → Z.of_nat n + 4 < 2 ^ 31 →
  (length buf < 4 ∨ length buf < hl + n)%nat →
  encrypt_payload payload buf flag = None.
Proof.
  intros n hl Htext Hn Hbuf.
  assert (n = length payload) as Hndef by done.
  assert (hl = 0 ∨ hl = 4)%nat as Hhl by (subst hl; destruct flag; lia).
  assert (Z.of_nat hl = if flag then 4 else 0) as Hhlz by (subst hl; by destruct flag).
  clearbody n hl.
  unfold encrypt_payload, sizeof_payload_header.
  rewrite strlen_text by done. rewrite <- Hndef.
  rewrite uint32_small by lia.
  destruct (decide (length buf < 4)%nat) as [Hshort|Hlong].
  - pose proof (store_header_short buf (header_byte (Z.of_nat n) 3)
                  (header_byte (Z.of_nat n) 2) (header_byte (Z.of_nat n) 1)
                  (header_byte (Z.of_nat n) 0) Hshort) as Hhdr.
    destruct (store buf 0 _) as [o1|]; [|done]. simpl in Hhdr |- *.
    destruct (store o1 1 _) as [o2|]; [|done]. simpl in Hhdr |- *.
    destruct (store o2 2 _) as [o3|]; [|done]. simpl in Hhdr |- *.
    by rewrite Hhdr.
  - pose proof (store_header buf _ _ _ _ ltac:(lia)
                  (header_byte_is_char (Z.of_nat n) 3) (header_byte_is_char (Z.of_nat n) 2)
                  (header_byte_is_char (Z.of_nat n) 1) (header_byte_is_char (Z.of_nat n) 0))
      as Hhdr.
    destruct (store buf 0 _) as [o1|]; [|done]. simpl in Hhdr |- *.
    destruct (store o1 1 _) as [o2|]; [|done]. simpl in Hhdr |- *.
    destruct (store o2 2 _) as [o3|]; [|done]. simpl in Hhdr |- *.
    rewrite Hhdr. simpl. clear Hhdr o1 o2 o3.
    set (out4 := header_byte (Z.of_nat n) 3 :: _).
    assert (length out4 = length buf) as Hlen4.
    { subst out4. simpl. rewrite length_drop. lia. }
    rewrite <- Hhlz, Nat2Z.id.
    pose proof (encrypt_loop_overflow payload hl n 0 cipher_key out4) as Hloop.
    change (Z.of_nat 0) with 0 in Hloop.
    by rewrite Hloop by lia.
Qed.

(** X5. [tplink_kasa_encrypt] stays inside its output array exactly when
    the array has four cells for the header, which is stored whether or not
    it is asked for, and room for the frame: the ciphertext, after the
    header when the flag is set. *)
Theorem encrypt_needs_header_room (print : cJSON → list Z) json (buf : list Z)
    (flag : bool) :
  let payload := print json in
  let n := length payload in
  let hl : nat := if flag then 4%nat else 0%nat in
  is_text payload → Z.of_nat n + 4 < 2 ^ 31 →
  is_Some (tplink_kasa_encrypt print json buf flag)
  ↔ (4 ≤ length buf ∧ hl + n ≤ length buf)%nat.
Proof.
  intros payload n hl Htext Hn. unfold tplink_kasa_encrypt. fold payload. split.
  - intros [r Hr].
    destruct (decide (4 ≤ length buf ∧ hl + n ≤ length buf)%nat) as [|Hno]; [done|].
    rewrite encrypt_payload_overflow in Hr; [done..|]. fold n hl. lia.
  - intros [H4 Hroom]. rewrite encrypt_payload_spec by done. eauto.
Qed.

Lemma encrypt_needs_header_room_witness :
  is_Some (tplink_kasa_encrypt JSONText.print (cJSON_Object []) [9; 9; 9] false)
  ↔ (4 ≤ 3 ∧ 0 + 2 ≤ 3)%nat.
Proof.
  apply (encrypt_needs_header_room JSONText.print (cJSON_Object []) [9; 9; 9] false);
    [vm_compute; repeat constructor | vm_compute; reflexivity].
Defined.

(** X6. What [tplink_kasa_encrypt] leaves in its output array around the
    frame: every cell from index 4 on that lies behind the frame keeps its
    old content, and without the header a text shorter than four bytes
    leaves header bytes in the cells between its ciphertext and index 4,
    beyond the length returned. *)
Theorem encrypt_leaves_rest_of_array (print : cJSON → list Z) json (buf : list Z)
    (flag : bool) :
  let payload := print json in
  let n := length payload in
  let hl : nat := if flag then 4%nat else 0%nat in
  is_text payload → Z.of_nat n + 4 < 2 ^ 31 →
  (4 ≤ length buf)%nat → (hl + n ≤ length buf)%nat →
  ∃ out,
    tplink_kasa_encrypt print json buf flag = Some (Z.of_nat (n + hl), out)
    ∧ length out = length buf
    ∧ (∀ i, (4 ≤ i)%nat → (hl + n ≤ i)%nat → out !! i = buf !! i)
    ∧ (flag = false → ∀ i, (n ≤ i < 4)%nat →
         out !! i = header_bytes (Z.of_nat n) !! i).
Proof.
  intros payload n hl Htext Hn H4 Hroom. unfold tplink_kasa_encrypt. fold payload.
  rewrite encrypt_payload_spec by done. fold n hl.
  assert (hl = 0 ∨ hl = 4)%nat as Hhl by (subst hl; destruct flag; lia).
  eexists. split; [done|].
  assert (length (take hl (header_bytes (Z.of_nat n))) = hl) as Hlh
    by (rewrite length_take; unfold header_bytes; simpl; lia).
  assert (∀ i, (hl + n ≤ i)%nat →
            (take hl (header_bytes (Z.of_nat n)) ++ Autokey.encode cipher_key payload
             ++ drop (hl + n) (header_bytes (Z.of_nat n) ++ drop 4 buf)) !! i
            = (header_bytes (Z.of_nat n) ++ drop 4 buf) !! i) as Hbehind.
  { intros i Hi.
    rewrite lookup_app_r by lia. rewrite lookup_app_r by (rewrite encode_length; fold n; lia).
    rewrite lookup_drop, Hlh, encode_length. fold n. f_equal. lia. }
  split; [|split].
  - rewrite !length_app, Hlh, encode_length, length_drop, length_app, length_drop.
    fold n. unfold header_bytes. simpl. lia.
  - intros i Hi4 Hi. rewrite Hbehind by done.
    rewrite lookup_app_r by (unfold header_bytes; simpl; lia).
    rewrite lookup_drop. f_equal. unfold header_bytes. simpl. lia.
  - intros -> i Hi. simpl in hl. subst hl. rewrite Hbehind by lia.
    apply lookup_app_l. unfold header_bytes. simpl. lia.
Qed.

Lemma encrypt_leaves_rest_of_array_witness :
  ∃ out,
    tplink_kasa_encrypt JSONText.print (cJSON_Object []) [9; 9; 9; 9; 5; 6] false
    = Some (2, out)
    ∧ length out = 6%nat
    ∧ (∀ i, (4 ≤ i)%nat → (0 + 2 ≤ i)%nat → out !! i = [9; 9; 9; 9; 5; 6] !! i)
    ∧ (false = false → ∀ i, (2 ≤ i < 4)%nat → out !! i = header_bytes 2 !! i).
Proof.
  apply (encrypt_leaves_rest_of_array JSONText.print (cJSON_Object [])
           [9; 9; 9; 9; 5; 6] false);
    [vm_compute; repeat constructor | vm_compute; reflexivity
    | vm_compute; lia | vm_compute; lia].
Defined.

(** ** What the decoder reads *)

(** X7. [tplink_kasa_decrypt] reads no cell of its input at or beyond
    [encrypted_len]: cutting the input array down to its first
    [encrypted_len] cells, so that any such read would leave the array,
    changes neither the outcome nor the output. *)
Theorem decrypt_reads_within_length (enc : list Z) len (out : list Z) flag :
  0 <= len < 2 ^ 31 → len <= Z.of_nat (length enc) →
  tplink_kasa_decrypt (take (Z.to_nat len) enc) len out flag
  = tplink_kasa_decrypt enc len out flag.
Proof.
  intros Hlen Henc. destruct (decide (len <= 4)) as [Hs|Hl].
  - unfold tplink_kasa_decrypt, sizeof_payload_header.
    rewrite uint32_small by lia. by rewrite (proj2 (Z.leb_le _ _)) by lia.
  - destruct (four_cells enc) as (b0 & b1 & b2 & b3 & rest & ->); [lia|].
    assert (take (Z.to_nat len) (b0 :: b1 :: b2 :: b3 :: rest)
            = b0 :: b1 :: b2 :: b3 :: take (Z.to_nat len - 4) rest) as ->.
    { replace (Z.to_nat len) with (S (S (S (S (Z.to_nat len - 4))))) at 1 by lia.
      done. }
    simpl in Henc.
    destruct (decrypt_window_bounds b0 b1 b2 b3 len ltac:(lia)) as (HL0 & Hhl & HhlL).
    set (hl := (decrypt_window b0 b1 b2 b3 len).1) in *.
    set (L := (decrypt_window b0 b1 b2 b3 len).2) in *.
    destruct (decide (L < Z.of_nat (length out))) as [Hfit|Hover].
    + rewrite !decrypt_long; try (done || lia).
      2:{ simpl. rewrite length_take. lia. }
      fold hl L. do 3 f_equal.
      change (b0 :: b1 :: b2 :: b3 :: take (Z.to_nat len - 4) rest)
        with (take (4 + (Z.to_nat len - 4)) (b0 :: b1 :: b2 :: b3 :: rest)).
      replace (4 + (Z.to_nat len - 4))%nat
        with (Z.to_nat hl + (Z.to_nat len - Z.to_nat hl))%nat
        by (clearbody hl L; lia).
      rewrite <- take_drop_commute, take_take.
      by replace (Z.to_nat L `min` (Z.to_nat len - Z.to_nat hl))%nat
        with (Z.to_nat L) by (clearbody hl L; lia).
    + rewrite !decrypt_long_overflow; try done;
        simpl; rewrite ?length_take; fold L; clearbody hl L; lia.
Qed.

Lemma decrypt_reads_within_length_witness :
  tplink_kasa_decrypt [0; 0; 0; 1; 208] 5 [7; 7; 7] true
  = tplink_kasa_decrypt [0; 0; 0; 1; 208; 44; 45] 5 [7; 7; 7] true.
Proof.
  apply (decrypt_reads_within_length [0; 0; 0; 1; 208; 44; 45] 5 [7; 7; 7] true);
    [lia | simpl; lia].
Defined.

(** X8. A negative [encrypted_len] is not caught as a short input: the
    guard compares it as an unsigned number, so the call goes on to read the
    four header bytes, which an input array of fewer than four cells does
    not have. *)
Theorem decrypt_negative_length_reads_header (enc : list Z) len (out : list Z) flag :
  - 2 ^ 31 <= len < 0 → (length enc < 4)%nat →
  tplink_kasa_decrypt enc len out flag = None.
Proof.
  intros Hlen Henc. unfold tplink_kasa_decrypt, sizeof_payload_header.
  assert (uint32 len = len + 2 ^ 32) as ->.
  { unfold uint32. replace len with (len + 2 ^ 32 + (-1) * 2 ^ 32) at 1 by lia.
    rewrite Z.mod_add by lia. apply Z.mod_small. lia. }
  rewrite (proj2 (Z.leb_gt _ _)) by lia.
  destruct enc as [|x0 [|x1 [|x2 [|x3 enc]]]]; simpl in Henc; try lia; done.
Qed.

Lemma decrypt_negative_length_reads_header_witness :
  tplink_kasa_decrypt [208; 173] (-1) [7; 7; 7] false = None.
Proof.
  apply (decrypt_negative_length_reads_header [208; 173] (-1) [7; 7; 7] false);
    [lia | simpl; lia].
Defined.

(** ** Where two ciphertexts part *)

Lemma encode_app_cons key pre :
  ∃ k, ∀ a s,
    Autokey.encode key (pre ++ a :: s)
    = Autokey.encode key pre ++ Z.lxor a k :: Autokey.encode (Z.lxor a k) s.
Proof.
  revert key. induction pre as [|p pre IH]; intros key.
  - by exists key.
  - destruct (IH (Z.lxor p key)) as [k Hk]. exists k. intros a s. simpl.
    by rewrite Hk.
Qed.

Lemma lxor_inj_l a a' k : Z.lxor a k = Z.lxor a' k → a = a'.
Proof.
  intros H. rewrite <- (lxor_cancel_r a k), H. apply lxor_cancel_r.
Qed.

(** X9. Two texts of equal length that agree up to some position and
    differ there are encoded into frames that agree up to that position and
    differ at it. *)
Theorem encrypt_frames_part_at_first_difference pre a a' s s' (buf : list Z)
    (flag : bool) :
  let p := pre ++ a :: s in
  let p' := pre ++ a' :: s' in
  let n := length p in
  let hl : nat := if flag then 4%nat else 0%nat in
  is_text p → is_text p' → a ≠ a' → length s = length s' →
  Z.of_nat n + 4 < 2 ^ 31 → (4 ≤ length buf)%nat → (hl + n ≤ length buf)%nat →
  ∃ out out',
    encrypt_payload p buf flag = Some (Z.of_nat (n + hl), out)
    ∧ encrypt_payload p' buf flag = Some (Z.of_nat (n + hl), out')
    ∧ take (hl + length pre) out = take (hl + length pre) out'
    ∧ out !! (hl + length pre)%nat ≠ out' !! (hl + length pre)%nat.
Proof.
  intros p p' n hl Hp Hp' Hne Hlen Hn H4 Hroom.
  assert (length p' = n) as Hn'
    by (subst p p' n; rewrite !length_app; simpl; lia).
  assert (hl = 0 ∨ hl = 4)%nat as Hhl by (subst hl; destruct flag; lia).
  pose proof (encrypt_payload_spec p buf flag Hp) as He.
  pose proof (encrypt_payload_spec p' buf flag Hp') as He'.
  simpl in He, He'. rewrite Hn' in He'. fold n hl in He, He'.
  rewrite He, He' by lia. clear He He'.
  eexists _, _. split; [done|]. split; [done|].
  destruct (encode_app_cons cipher_key pre) as [k Hk].
  subst p p'. rewrite !Hk.
  set (hdr := take hl (header_bytes (Z.of_nat n))).
  assert (length (hdr ++ Autokey.encode cipher_key pre) = (hl + length pre)%nat) as Hl.
  { subst hdr. rewrite length_app, length_take, encode_length.
    unfold header_bytes. simpl. lia. }
  rewrite <- !(app_assoc (Autokey.encode cipher_key pre)).
  rewrite !(app_assoc hdr). split.
  - by rewrite !take_app_length' by done.
  - rewrite !(lookup_app_r (hdr ++ Autokey.encode cipher_key pre)) by (rewrite Hl; lia).
    rewrite Hl, Nat.sub_diag. simpl.
    intros Heq. injection Heq as Heq. by apply lxor_inj_l in Heq.
Qed.

Lemma encrypt_frames_part_at_first_difference_witness :
  ∃ out out',
    encrypt_payload [91; 49; 93] [9; 9; 9; 9; 9; 9; 9] true = Some (7, out)
    ∧ encrypt_payload [91; 50; 93] [9; 9; 9; 9; 9; 9; 9] true = Some (7, out')
    ∧ take 5 out = take 5 out'
    ∧ out !! 5%nat ≠ out' !! 5%nat.
Proof.
  apply (encrypt_frames_part_at_first_difference [91] 49 50 [93] [93]
           [9; 9; 9; 9; 9; 9; 9] true);
    [vm_compute; repeat constructor | vm_compute; repeat constructor
    | lia | reflexivity | vm_compute; reflexivity | simpl; lia | simpl; lia].
Defined.

(** ** The responder *)

Lemma decode_request_short_block raw len flag :
  0 <= len <= 4 → len < Z.of_nat (length raw) →
  decode_request raw len flag
  = Some (<[Z.to_nat len := 0]> raw, <[0%nat := 0]> (malloc len)).
Proof.
  intros Hlen Hraw. unfold decode_request.
  rewrite store_within by lia. change (char 0) with 0. simpl.
  unfold tplink_kasa_decrypt, sizeof_payload_header.
  rewrite uint32_small by lia.
  rewrite (proj2 (Z.leb_le _ _)) by lia.
  by rewrite store_within by (pose proof (malloc_length len); lia).
Qed.

Lemma malloc_red_zone n : 0 <= n → malloc n !! Z.to_nat n = Some red_zone.
Proof.
  intros Hn. unfold malloc.
  rewrite lookup_app_r by (rewrite length_replicate; lia).
  by rewrite length_replicate, Nat.sub_diag.
Qed.

Lemma declared_length_take (raw : list Z) b0 b1 b2 b3 :
  take 4 raw = [b0; b1; b2; b3] →
  declared_length raw = payload_length_of_bytes b0 b1 b2 b3.
Proof.
  destruct raw as [|r0 [|r1 [|r2 [|r3 raw]]]]; simpl; intros H; try done.
  by injection H as -> -> -> ->.
Qed.

(** X10. The block that [tplink_kasa_process_buffer] allocates for the
    decoded text is overrun in exactly two cases: a received length of 0, and
    a buffer of more than four bytes whose declared length exceeds the bytes
    after the header.  For one to four bytes, and for every well-formed
    frame, the decoder stays inside the block. *)
Theorem request_block_overrun_cases (raw : list Z) len flag :
  0 <= len < 2 ^ 31 → len < Z.of_nat (length raw) →
  ∃ raw' blk,
    decode_request raw len flag = Some (raw', blk)
    ∧ (red_zone_intact len blk = true
       ↔ 1 <= len <= 4 ∨ (4 < len ∧ declared_length raw <= len - 4)).
Proof.
  intros Hlen Hraw. destruct (decide (len <= 4)) as [Hs|Hl].
  - rewrite decode_request_short_block by lia. eexists _, _. split; [done|].
    unfold red_zone_intact. rewrite bool_decide_eq_true.
    destruct (decide (len = 0)) as [->|Hpos].
    + split; [done|lia].
    + split; [lia|]. intros _.
      rewrite list_lookup_insert_ne by lia. apply malloc_red_zone. lia.
  - destruct (decode_request_long raw len flag)
      as (b0 & b1 & b2 & b3 & rest & _ & Htake & Hd & Hpl & HL); [lia..|].
    rewrite (declared_length_take _ _ _ _ _ Htake).
    eexists _, _. split; [exact Hd|].
    unfold red_zone_intact. rewrite bool_decide_eq_true.
    destruct (decrypt_window_cases b0 b1 b2 b3 len ltac:(lia)) as [[Hover Hw]|[Hfit Hw]];
      rewrite Hw in *; simpl in *.
    + rewrite lookup_app_r by lia. rewrite Hpl, Nat.sub_diag. simpl.
      split; [done|lia].
    + split; [lia|]. intros _.
      rewrite lookup_app_r by lia. rewrite Hpl.
      pose proof (payload_length_nonneg b0 b1 b2 b3).
      replace (Z.to_nat len - Z.to_nat (payload_length_of_bytes b0 b1 b2 b3))%nat
        with (S (Z.to_nat len - Z.to_nat (payload_length_of_bytes b0 b1 b2 b3) - 1))
        by lia.
      simpl. rewrite lookup_drop.
      replace (S (Z.to_nat (payload_length_of_bytes b0 b1 b2 b3))
               + (Z.to_nat len - Z.to_nat (payload_length_of_bytes b0 b1 b2 b3) - 1))%nat
        with (Z.to_nat len) by lia.
      apply malloc_red_zone. lia.
Qed.

Lemma request_block_overrun_cases_witness :
  ∃ raw' blk,
    decode_request [0; 0; 0; 2; 208; 173; 9] 6 true = Some (raw', blk)
    ∧ (red_zone_intact 6 blk = true
       ↔ 1 <= 6 <= 4 ∨ (4 < 6 ∧ declared_length [0; 0; 0; 2; 208; 173; 9] <= 6 - 4)).
Proof.
  apply (request_block_overrun_cases [0; 0; 0; 2; 208; 173; 9] 6 true);
    [lia | simpl; lia].
Defined.

(** X11. The reply to a system-information request is the encoding of the
    printed response document, whatever else the request holds: the length
    returned is that of the printed text, plus four with the header, and
    decoding [raw_buffer] over that length with the same flag gives the
    printed text back (for a text of 5 to 65539 bytes that fits the
    buffer).  Stated for requests whose decoding stays inside the block:
    the text is the one the decoder leaves in an array of exactly
    [buffer_len] cells, and the byte behind the block is left as it was. *)
Theorem sysinfo_reply_decodes_to_printed_response
    (parse : list Z → option cJSON) (print : cJSON → list Z)
    (raw : list Z) len (flag : bool) t :
  let payload := print (sysinfo_response t) in
  let n := length payload in
  let hl : nat := if flag then 4%nat else 0%nat in
  parse tplink_kasa_sysinfo = Some t →
  is_text payload → (5 ≤ n)%nat → Z.of_nat n < 2 ^ 16 + 4 →
  (n + 4 ≤ length raw)%nat →
  1 <= len < 2 ^ 31 → len < Z.of_nat (length raw) →
  len <= 4 ∨ declared_length raw <= len - 4 →
  ∃ k text_block text,
    tplink_kasa_decrypt (<[Z.to_nat len := 0]> raw) len
      (replicate (Z.to_nat len) 0) flag = Some (k, text_block)
    ∧ c_str text_block = Some text
    ∧ ∀ doc,
        parse text = Some doc →
        cJSON_HasObjectItem doc
          (cJSON_GetObjectItem doc (Some []) "system") "get_sysinfo" = true →
        ∃ r, tplink_kasa_process_buffer parse print raw len flag = Some r
             ∧ json_block r = text_block ++ [red_zone]
             ∧ reply_len r = Z.of_nat (n + hl)
             ∧ ∀ out : list Z, (n < length out)%nat →
                 ∃ out', tplink_kasa_decrypt (raw_after r) (reply_len r) out flag
                         = Some (Z.of_nat n, out')
                         ∧ c_str out' = Some payload.
Proof.
  intros payload n hl Htemplate Htext Hn5 Hn Hroom Hlen Hraw Hfit.
  destruct (decode_request_in_block raw len flag Hlen Hraw Hfit)
    as (k & text_block & text & Hexact & Hstr & Hd & _).
  exists k, text_block, text. split; [done|]. split; [done|].
  intros doc Hdoc Hsys.
  unfold tplink_kasa_process_buffer. rewrite Hd.
  cbn [mbind option_bind fst snd].
  rewrite (c_str_app _ [red_zone] _ Hstr). cbn [mbind option_bind].
  rewrite Hdoc, Hsys, Htemplate. unfold tplink_kasa_encrypt. fold payload.
  set (raw1 := <[Z.to_nat len := 0]> raw).
  assert (length raw1 = length raw) as Hl1 by (subst raw1; by rewrite length_insert).
  pose proof (encrypt_payload_spec payload raw1 flag Htext) as Henc.
  simpl in Henc. fold n hl in Henc.
  assert (hl = 0 ∨ hl = 4)%nat as Hhl by (subst hl; destruct flag; lia).
  rewrite Henc by lia. simpl.
  eexists. split; [done|]. simpl. split; [done|]. split; [done|].
  intros out Hout.
  destruct flag.
  - destruct (roundtrip_with_header payload raw1 out Htext) as (enc & out' & He & Hdec & Hs);
      [fold n; lia..|].
    fold n in He, Hdec. rewrite Henc in He by lia. injection He as Hnl <-.
    exists out'. split; [|done]. by rewrite Hnl.
  - destruct (roundtrip_without_header_long payload raw1 out Htext)
      as (enc & out' & He & Hdec & Hs); [fold n; lia..|].
    fold n in He, Hdec. rewrite Henc in He by lia. injection He as Hnl <-.
    exists out'. split; [|done]. by rewrite Hnl.
Qed.

Lemma sysinfo_reply_decodes_to_printed_response_witness :
  ∃ k text_block text,
    tplink_kasa_decrypt (<[Z.to_nat 33 := 0]> stream_request_buffer) 33
      (replicate (Z.to_nat 33) 0) true = Some (k, text_block)
    ∧ c_str text_block = Some text
    ∧ ∀ doc,
        JSONText.parse text = Some doc →
        cJSON_HasObjectItem doc
          (cJSON_GetObjectItem doc (Some []) "system") "get_sysinfo" = true →
        ∃ r, tplink_kasa_process_buffer JSONText.parse JSONText.print
               stream_request_buffer 33 true = Some r
             ∧ json_block r = text_block ++ [red_zone]
             ∧ reply_len r
               = Z.of_nat (length (JSONText.print (sysinfo_response sysinfo_document)) + 4)
             ∧ ∀ out : list Z,
                 (length (JSONText.print (sysinfo_response sysinfo_document))
                  < length out)%nat →
                 ∃ out', tplink_kasa_decrypt (raw_after r) (reply_len r) out true
                         = Some (Z.of_nat (length (JSONText.print
                                                     (sysinfo_response sysinfo_document))),
                                 out')
                         ∧ c_str out'
                           = Some (JSONText.print (sysinfo_response sysinfo_document)).
Proof.
  apply (sysinfo_reply_decodes_to_printed_response JSONText.parse JSONText.print
           stream_request_buffer 33 true sysinfo_document).
  - vm_compute. reflexivity.
  - vm_compute. repeat constructor.
  - vm_compute. lia.
  - vm_compute. reflexivity.
  - vm_compute. lia.
  - lia.
  - vm_compute. reflexivity.
  - right. vm_compute. discriminate.
Defined.

Lemma first_match_app name pre m rest i :
  Forall (λ x, name_matches name x = false) pre →
  name_matches name m = true →
  first_match name (pre ++ m :: rest) i = Some (i + length pre)%nat.
Proof.
  intros Hpre Hm. revert i.
  induction Hpre as [|x pre Hx _ IH]; intros i; simpl.
  - rewrite Hm. f_equal. lia.
  - rewrite Hx, IH. f_equal. lia.
Qed.

Lemma alter_middle {A} (f : A → A) (pre : list A) x rest :
  alter f (length pre) (pre ++ x :: rest) = pre ++ f x :: rest.
Proof.
  rewrite <- (Nat.add_0_r (length pre)). by rewrite alter_app_r.
Qed.

(** X12. Given a template whose get_sysinfo object has a state object,
    the responder appends temperature 0, humidity 0 and err_code 0, in this
    order, to that state object and changes nothing else of the template. *)
Theorem sysinfo_response_fills_state pre ms rest sys_rest root_rest :
  Forall (λ m, name_matches "state" m = false) pre →
  sysinfo_response
    (cJSON_Object
       (("system", cJSON_Object
           (("get_sysinfo", cJSON_Object (pre ++ ("state", cJSON_Object ms) :: rest))
            :: sys_rest))
        :: root_rest))
  = cJSON_Object
      (("system", cJSON_Object
          (("get_sysinfo",
            cJSON_Object
              (pre ++ ("state",
                       cJSON_Object
                         (ms ++ [("temperature", cJSON_Number 0);
                                 ("humidity", cJSON_Number 0);
                                 ("err_code", cJSON_Number 0)]))
                   :: rest))
           :: sys_rest))
       :: root_rest).
Proof.
  intros Hpre. unfold sysinfo_response.
  set (t := cJSON_Object _).
  assert (cJSON_GetObjectItem t (Some []) "system" = Some [0%nat]) as -> by done.
  assert (cJSON_GetObjectItem t (Some [0%nat]) "get_sysinfo" = Some [0; 0]%nat)
    as -> by done.
  assert (cJSON_GetObjectItem t (Some [0; 0]%nat) "state"
          = Some [0; 0; length pre]%nat) as ->.
  { unfold cJSON_GetObjectItem. subst t. simpl.
    by rewrite first_match_app. }
  subst t. unfold cJSON_AddItemToObject, cJSON_CreateNumber. simpl.
  rewrite !alter_middle. simpl.
  by rewrite <- !app_assoc.
Qed.

Lemma sysinfo_response_fills_state_witness :
  sysinfo_response
    (cJSON_Object
       [("system", cJSON_Object
           [("get_sysinfo",
             cJSON_Object [("err_code", cJSON_Number 0);
                           ("state", cJSON_Object [("on", cJSON_True)])])])])
  = cJSON_Object
      [("system", cJSON_Object
          [("get_sysinfo",
            cJSON_Object
              [("err_code", cJSON_Number 0);
               ("state", cJSON_Object [("on", cJSON_True);
                                       ("temperature", cJSON_Number 0);
                                       ("humidity", cJSON_Number 0);
                                       ("err_code", cJSON_Number 0)])])])].
Proof.
  apply (sysinfo_response_fills_state [("err_code", cJSON_Number 0)]
           [("on", cJSON_True)] [] [] []).
  repeat constructor.
Defined.

(** ** The write loop of the stream listener *)

Lemma written_before_cons w ws k :
  written_before (w :: ws) (S k) = w + written_before ws k.
Proof. done. Qed.

(** X13. The write loop resumes where the previous [send] stopped: the
    k-th call starts at the offset given by the bytes that the earlier calls
    reported as written and asks for all the bytes that remain. *)
Theorem send_resumes_after_bytes_written connection reply_len written events :
  send_all connection reply_len reply_len written = Some events →
  ∀ k e, events !! k = Some e →
    e = Ev_send connection (written_before written k)
          (reply_len - written_before written k).
Proof.
  assert (∀ ws t evs,
            send_all connection reply_len t ws = Some evs →
            ∀ k e, evs !! k = Some e →
              e = Ev_send connection (reply_len - t + written_before ws k)
                    (t - written_before ws k)) as Hgen.
  { induction ws as [|w ws IH]; intros t evs H k e Hk; simpl in H.
    - destruct (t <=? 0); [|done]. injection H as <-. done.
    - destruct (t <=? 0); [injection H as <-; done|].
      destruct (w <? 0).
      + injection H as <-. destruct k as [|k]; [|done].
        injection Hk as <-. unfold written_before. simpl. f_equal; lia.
      + destruct (send_all connection reply_len (t - w) ws) as [evs'|] eqn:Hrest;
          [|done].
        simpl in H. injection H as <-. destruct k as [|k].
        * injection Hk as <-. unfold written_before. simpl. f_equal; lia.
        * simpl in Hk. rewrite (IH _ _ Hrest _ _ Hk), written_before_cons.
          f_equal; lia. }
  intros H k e Hk. rewrite (Hgen _ _ _ H _ _ Hk). f_equal; lia.
Qed.

Lemma send_resumes_after_bytes_written_witness :
  Ev_send 3 7 3
  = Ev_send 3 (written_before [4; 3; 5; 8] 2) (10 - written_before [4; 3; 5; 8] 2).
Proof.
  apply (send_resumes_after_bytes_written 3 10 [4; 3; 5; 8]
           [Ev_send 3 0 10; Ev_send 3 4 6; Ev_send 3 7 3]);
    [vm_compute; reflexivity | reflexivity].
Defined.

(** X14. When no [send] fails and the write loop ends, the bytes reported
    as written cover the whole reply, and one call fewer would not have. *)
Theorem send_loop_covers_reply connection reply_len written events :
  Forall (λ w, 0 <= w) written → 0 < reply_len →
  send_all connection reply_len reply_len written = Some events →
  (length events ≤ length written)%nat
  ∧ reply_len <= written_before written (length events)
  ∧ written_before written (length events - 1) < reply_len.
Proof.
  intros Hpos.
  enough (∀ evs t, 0 < t → send_all connection reply_len t written = Some evs →
            (length evs ≤ length written)%nat
            ∧ t <= written_before written (length evs)
            ∧ written_before written (length evs - 1) < t) as Hgen
    by (intros; by apply Hgen).
  induction Hpos as [|w ws Hw _ IH]; intros evs t Ht H; simpl in H.
  - rewrite (proj2 (Z.leb_gt _ _)) in H by lia. done.
  - rewrite (proj2 (Z.leb_gt _ _)) in H by lia.
    rewrite (proj2 (Z.ltb_ge _ _)) in H by lia.
    destruct (send_all connection reply_len (t - w) ws) as [evs'|] eqn:Hrest; [|done].
    simpl in H. injection H as <-.
    destruct (decide (t - w <= 0)) as [Hdone|Hmore].
    + destruct ws as [|w' ws]; simpl in Hrest;
        rewrite (proj2 (Z.leb_le _ _)) in Hrest by lia; injection Hrest as <-;
        unfold written_before; simpl; lia.
    + destruct (IH evs' (t - w) ltac:(lia) Hrest) as (Hlen & Hcov & Hmin).
      destruct evs' as [|e evs'].
      { unfold written_before in Hcov. simpl in Hcov. lia. }
      simpl length in *. rewrite written_before_cons.
      replace (S (S (length evs')) - 1)%nat with (S (length evs')) by lia.
      replace (S (length evs') - 1)%nat with (length evs') in Hmin by lia.
      rewrite written_before_cons. lia.
Qed.

Lemma send_loop_covers_reply_witness :
  (length [Ev_send 3 0 10; Ev_send 3 4 6; Ev_send 3 7 3] ≤ length [4; 3; 5; 8])%nat
  ∧ 10 <= written_before [4; 3; 5; 8] (length [Ev_send 3 0 10; Ev_send 3 4 6; Ev_send 3 7 3])
  ∧ written_before [4; 3; 5; 8]
      (length [Ev_send 3 0 10; Ev_send 3 4 6; Ev_send 3 7 3] - 1) < 10.
Proof.
  apply (send_loop_covers_reply 3 10 [4; 3; 5; 8]
           [Ev_send 3 0 10; Ev_send 3 4 6; Ev_send 3 7 3]);
    [repeat constructor; lia | lia | vm_compute; reflexivity].
Defined.

(** X15. A [send] that keeps returning 0 keeps the write loop going: with
    bytes left to write, no number of such calls lets the loop end. *)
Theorem send_loop_spins_on_zero connection reply_len to_write n :
  0 < to_write →
  send_all connection reply_len to_write (replicate n 0) = None.
Proof.
  intros Ht. induction n as [|n IH]; simpl.
  - by rewrite (proj2 (Z.leb_gt _ _)) by lia.
  - rewrite (proj2 (Z.leb_gt _ _)) by lia. simpl.
    rewrite Z.sub_0_r, IH. done.
Qed.

Lemma send_loop_spins_on_zero_witness :
  send_all 3 10 10 (replicate 5 0) = None.
Proof. apply (send_loop_spins_on_zero 3 10 10 5). lia. Defined.

(** ** Whole passes of the listeners *)

Lemma process_buffer_without_reply parse print raw len flag raw1 blk text :
  decode_request raw len flag = Some (raw1, blk) →
  c_str blk = Some text →
  parse text = None
  ∨ (∃ doc, parse text = Some doc
            ∧ cJSON_HasObjectItem doc
                (cJSON_GetObjectItem doc (Some []) "system") "get_sysinfo" = false) →
  tplink_kasa_process_buffer parse print raw len flag
  = Some {| reply_len := 0; raw_after := raw1; json_block := blk |}.
Proof.
  intros Hd Hstr Hno.
  unfold tplink_kasa_process_buffer. rewrite Hd. simpl. rewrite Hstr. simpl.
  destruct Hno as [Hnone|(doc & Hdoc & Hno)].
  - by rewrite Hnone.
  - by rewrite Hdoc, Hno.
Qed.

Lemma send_all_nothing connection reply_len to_write written :
  to_write <= 0 → send_all connection reply_len to_write written = Some [].
Proof.
  intros Ht. destruct written; simpl; by rewrite (proj2 (Z.leb_le _ _)) by lia.
Qed.

(** What a receive call leaves: at most 1999 bytes, in a buffer of the
    same size. *)
Lemma receive_bounds (raw : list Z) data :
  length raw = 2000%nat →
  let rx := receive raw (buffer_len - 1) (Incoming data) in
  0 <= rx.1 <= 1999
  ∧ rx.1 = Z.of_nat (length data `min` 1999)
  ∧ length rx.2 = 2000%nat.
Proof.
  intros Hraw. unfold receive, buffer_len. simpl.
  change (Z.to_nat (2000 - 1)) with 1999%nat.
  rewrite length_app, length_drop, length_take. lia.
Qed.

(** X16. The datagram listener answers a datagram also when the request
    is not recognised, or does not parse: it still calls [sendto], with
    length 0, after storing only the terminator in the receive buffer.
    Stated for datagrams whose decoding stays inside the block of the
    responder (one to four bytes, or a header that declares no more than
    the bytes behind it); the text is the one the decoder leaves in an
    array of exactly as many cells as bytes were received. *)
Theorem datagram_pass_answers_with_empty_datagram
    (parse : list Z → option cJSON) (print : cJSON → list Z) (raw : list Z) a data :
  length raw = 2000%nat → on_recvfrom a = Incoming data →
  let rx := receive raw (buffer_len - 1) (Incoming data) in
  1 <= rx.1 → rx.1 <= 4 ∨ declared_length rx.2 <= rx.1 - 4 →
  ∃ n text_block text,
    tplink_kasa_decrypt (<[Z.to_nat rx.1 := 0]> rx.2) rx.1
      (replicate (Z.to_nat rx.1) 0) false = Some (n, text_block)
    ∧ c_str text_block = Some text
    ∧ (parse text = None
       ∨ (∃ doc, parse text = Some doc
                 ∧ cJSON_HasObjectItem doc
                     (cJSON_GetObjectItem doc (Some []) "system") "get_sysinfo"
                   = false) →
       server_pass parse print SOCK_DGRAM raw a
       = Some ([Ev_recvfrom rx.1; Ev_process 0; Ev_sendto 0],
               <[Z.to_nat rx.1 := 0]> rx.2)).
Proof.
  intros Hraw Hrecv rx Hpos Hfit.
  destruct (receive_bounds raw data Hraw) as (Hrx & _ & Hlen). fold rx in Hrx, Hlen.
  destruct (decode_request_in_block rx.2 rx.1 false)
    as (n & text_block & text & Hexact & Hstr & Hd & _); [lia..|done|].
  exists n, text_block, text. split; [done|]. split; [done|].
  intros Hno. unfold server_pass. simpl. rewrite Hrecv. fold rx.
  rewrite (proj2 (Z.ltb_ge _ _)) by lia.
  unfold respond.
  by rewrite (process_buffer_without_reply _ _ _ _ _ _ _ _ Hd
                (c_str_app _ [red_zone] _ Hstr) Hno).
Qed.

Lemma datagram_pass_answers_with_empty_datagram_witness :
  let data := take 13 framed_foo_buffer in
  let a := {| on_recvfrom := Incoming data; on_accept := 0; on_recv := Incoming_error;
              on_sendto := 0; on_send := [] |} in
  let rx := receive (replicate 2000 0) (buffer_len - 1) (Incoming data) in
  ∃ n text_block text,
    tplink_kasa_decrypt (<[Z.to_nat rx.1 := 0]> rx.2) rx.1
      (replicate (Z.to_nat rx.1) 0) false = Some (n, text_block)
    ∧ c_str text_block = Some text
    ∧ (JSONText.parse text = None
       ∨ (∃ doc, JSONText.parse text = Some doc
                 ∧ cJSON_HasObjectItem doc
                     (cJSON_GetObjectItem doc (Some []) "system") "get_sysinfo"
                   = false) →
       server_pass JSONText.parse JSONText.print SOCK_DGRAM (replicate 2000 0) a
       = Some ([Ev_recvfrom rx.1; Ev_process 0; Ev_sendto 0],
               <[Z.to_nat rx.1 := 0]> rx.2)).
Proof.
  intros data a.
  apply (datagram_pass_answers_with_empty_datagram JSONText.parse JSONText.print
           (replicate 2000 0) a data);
    [reflexivity | reflexivity | vm_compute; discriminate
    | right; vm_compute; discriminate].
Defined.

(** X17. On the stream listener a request that is not recognised, or does
    not parse, gets no byte in return: after a non-empty read the pass calls
    [send] not once, shuts the connection down and closes it, so that no
    connection is left open.  Stated for reads whose decoding stays inside
    the block of the responder (up to four bytes, or a header that declares
    no more than the bytes behind it); the text is the one the decoder
    leaves in an array of exactly as many cells as bytes were read. *)
Theorem stream_pass_without_reply
    (parse : list Z → option cJSON) (print : cJSON → list Z) (raw : list Z) a x data :
  length raw = 2000%nat → 0 <= on_accept a → on_recv a = Incoming (x :: data) →
  let rx := receive raw (buffer_len - 1) (Incoming (x :: data)) in
  let c := on_accept a in
  rx.1 <= 4 ∨ declared_length rx.2 <= rx.1 - 4 →
  ∃ n text_block text,
    tplink_kasa_decrypt (<[Z.to_nat rx.1 := 0]> rx.2) rx.1
      (replicate (Z.to_nat rx.1) 0) true = Some (n, text_block)
    ∧ c_str text_block = Some text
    ∧ (parse text = None
       ∨ (∃ doc, parse text = Some doc
                 ∧ cJSON_HasObjectItem doc
                     (cJSON_GetObjectItem doc (Some []) "system") "get_sysinfo"
                   = false) →
       let trace := [Ev_accept c; Ev_setsockopt c; Ev_setsockopt c; Ev_setsockopt c;
                     Ev_setsockopt c; Ev_recv c rx.1; Ev_process 0;
                     Ev_shutdown c; Ev_close c] in
       server_pass parse print SOCK_STREAM raw a
       = Some (trace, <[Z.to_nat rx.1 := 0]> rx.2)
       ∧ open_connections trace [] = []).
Proof.
  intros Hraw Hc Hrecv rx c Hfit.
  destruct (receive_bounds raw (x :: data) Hraw) as (Hrx & Hmin & Hlen).
  fold rx in Hrx, Hmin, Hlen.
  assert (0 < rx.1) as Hpos by (simpl length in Hmin; lia).
  destruct (decode_request_in_block rx.2 rx.1 true)
    as (n & text_block & text & Hexact & Hstr & Hd & _); [lia..|done|].
  exists n, text_block, text. split; [done|]. split; [done|].
  intros Hno trace. split.
  - unfold server_pass. simpl. fold c.
    rewrite (proj2 (Z.ltb_ge _ _)) by (subst c; lia).
    rewrite Hrecv. fold rx.
    rewrite (proj2 (Z.ltb_ge _ _)) by lia.
    rewrite (proj2 (Z.eqb_neq _ _)) by lia.
    unfold respond.
    rewrite (process_buffer_without_reply _ _ _ _ _ _ _ _ Hd
               (c_str_app _ [red_zone] _ Hstr) Hno).
    cbn [mbind option_bind reply_len raw_after].
    by rewrite send_all_nothing by lia.
  - subst trace. simpl.
    rewrite (proj2 (Z.ltb_ge _ _)) by (subst c; lia). simpl.
    by rewrite filter_cons_False by (intros Hcc; by apply Hcc).
Qed.

Lemma stream_pass_without_reply_witness :
  let data := take 13 framed_foo_buffer in
  let a := {| on_recvfrom := Incoming_error; on_accept := 54;
              on_recv := Incoming data; on_sendto := 0; on_send := [] |} in
  let rx := receive (replicate 2000 0) (buffer_len - 1) (Incoming data) in
  let c := on_accept a in
  ∃ n text_block text,
    tplink_kasa_decrypt (<[Z.to_nat rx.1 := 0]> rx.2) rx.1
      (replicate (Z.to_nat rx.1) 0) true = Some (n, text_block)
    ∧ c_str text_block = Some text
    ∧ (JSONText.parse text = None
       ∨ (∃ doc, JSONText.parse text = Some doc
                 ∧ cJSON_HasObjectItem doc
                     (cJSON_GetObjectItem doc (Some []) "system") "get_sysinfo"
                   = false) →
       let trace := [Ev_accept c; Ev_setsockopt c; Ev_setsockopt c; Ev_setsockopt c;
                     Ev_setsockopt c; Ev_recv c rx.1; Ev_process 0;
                     Ev_shutdown c; Ev_close c] in
       server_pass JSONText.parse JSONText.print SOCK_STREAM (replicate 2000 0) a
       = Some (trace, <[Z.to_nat rx.1 := 0]> rx.2)
       ∧ open_connections trace [] = []).
Proof.
  intros data a.
  apply (stream_pass_without_reply JSONText.parse JSONText.print
           (replicate 2000 0) a 0 [0; 0; 9; 208; 242; 148; 251; 148; 182; 140; 189; 192]);
    [reflexivity | simpl; lia | reflexivity | right; vm_compute; discriminate].
Defined.

Lemma send_all_sends connection reply_len to_write written events :
  send_all connection reply_len to_write written = Some events →
  Forall (λ e, ∃ o l, e = Ev_send connection o l) events.
Proof.
  revert to_write events.
  induction written as [|w ws IH]; intros t evs H; simpl in H.
  - destruct (t <=? 0); [|done]. injection H as <-. constructor.
  - destruct (t <=? 0); [injection H as <-; constructor|].
    destruct (w <? 0).
    + injection H as <-. repeat constructor. eauto.
    + destruct (send_all connection reply_len (t - w) ws) as [evs'|] eqn:Hrest;
        [|done].
      simpl in H. injection H as <-. constructor; eauto.
Qed.

Lemma open_connections_sends connection events rest open :
  Forall (λ e, ∃ o l, e = Ev_send connection o l) events →
  open_connections (events ++ rest) open = open_connections rest open.
Proof.
  induction 1 as [|e evs (o & l & ->) _ IH]; simpl; done.
Qed.

(** X18. Whatever the request and whatever [send] returns, a pass of the
    stream listener that read at least one byte and ran to its end finished
    with [shutdown] and [close] of the accepted connection, after the sends,
    and left no connection open. *)
Theorem stream_pass_with_data_closes
    (parse : list Z → option cJSON) (print : cJSON → list Z)
    (raw : list Z) a x data trace raw' :
  0 <= on_accept a → on_recv a = Incoming (x :: data) →
  server_pass parse print SOCK_STREAM raw a = Some (trace, raw') →
  let c := on_accept a in
  ∃ rx reply sent,
    send_all c reply reply (on_send a) = Some sent
    ∧ trace = [Ev_accept c; Ev_setsockopt c; Ev_setsockopt c; Ev_setsockopt c;
               Ev_setsockopt c; Ev_recv c rx; Ev_process reply]
              ++ sent ++ [Ev_shutdown c; Ev_close c]
    ∧ open_connections trace [] = [].
Proof.
  intros Hc Hrecv. unfold server_pass. simpl.
  rewrite (proj2 (Z.ltb_ge _ _)) by lia.
  rewrite Hrecv. unfold receive, buffer_len.
  change (Z.to_nat (2000 - 1)) with 1999%nat.
  change (take 1999 (x :: data)) with (x :: take 1998 data).
  set (d := x :: take 1998 data).
  assert (0 < Z.of_nat (length d)) as Hd by (subst d; simpl; lia).
  cbn [fst snd].
  rewrite (proj2 (Z.ltb_ge _ _)) by lia.
  rewrite (proj2 (Z.eqb_neq _ _)) by lia.
  unfold respond.
  destruct (tplink_kasa_process_buffer _ _ _ _ _) as [r|]; [|done].
  cbn [mbind option_bind].
  destruct (send_all _ _ _ _) as [sent|] eqn:Hsent; [|done].
  cbn [mbind option_bind]. intros H. injection H as <- <-.
  exists (Z.of_nat (length d)), (reply_len r), sent.
  split; [done|]. split; [done|].
  simpl. rewrite (proj2 (Z.ltb_ge _ _)) by lia.
  rewrite (open_connections_sends _ _ _ _ (send_all_sends _ _ _ _ _ Hsent)).
  simpl. by rewrite filter_cons_False by (intros Hcc; by apply Hcc).
Qed.

Lemma stream_pass_with_data_closes_witness :
  let a := {| on_recvfrom := Incoming_error; on_accept := 54;
              on_recv := Incoming [1; 2; 3]; on_sendto := 0; on_send := [] |} in
  let c := on_accept a in
  ∃ rx reply sent,
    send_all c reply reply (on_send a) = Some sent
    ∧ [Ev_accept 54; Ev_setsockopt 54; Ev_setsockopt 54; Ev_setsockopt 54;
       Ev_setsockopt 54; Ev_recv 54 3; Ev_process 0; Ev_shutdown 54; Ev_close 54]
      = [Ev_accept c; Ev_setsockopt c; Ev_setsockopt c; Ev_setsockopt c;
         Ev_setsockopt c; Ev_recv c rx; Ev_process reply]
        ++ sent ++ [Ev_shutdown c; Ev_close c]
    ∧ open_connections
        [Ev_accept 54; Ev_setsockopt 54; Ev_setsockopt 54; Ev_setsockopt 54;
         Ev_setsockopt 54; Ev_recv 54 3; Ev_process 0; Ev_shutdown 54; Ev_close 54]
        [] = [].
Proof.
  intros a.
  apply (stream_pass_with_data_closes JSONText.parse JSONText.print
           (replicate 2000 0) a 1 [2; 3] _
           (<[3%nat := 0]> ([1; 2; 3] ++ replicate 1997 0)));
    [simpl; lia | reflexivity | vm_compute; reflexivity].
Defined.

(** X19. Peers that connect to the stream listener and send nothing pile
    up: after any number of such passes the loop has accepted every one of
    the connections and closed none, so all of them are open. *)
Theorem silent_peers_accumulate
    (parse : list Z → option cJSON) (print : cJSON → list Z) (raw : list Z)
    (connections : list Z) :
  Forall (λ c, 0 <= c) connections →
  ∃ trace,
    server_loop parse print SOCK_STREAM raw (silent_peer <$> connections) = Some trace
    ∧ open_connections trace [] = connections.
Proof.
  intros Hpos.
  enough (∃ trace,
            server_loop parse print SOCK_STREAM raw (silent_peer <$> connections)
            = Some trace
            ∧ ∀ open, open_connections trace open = open ++ connections)
    as (trace & Hrun & Hopen) by (exists trace; split; [done|apply Hopen]).
  induction Hpos as [|c cs Hc _ (trace & Hrun & Hopen)].
  - exists []. split; [done|]. intros open. by rewrite app_nil_r.
  - rewrite fmap_cons. cbn [server_loop].
    assert (server_pass parse print SOCK_STREAM raw (silent_peer c)
            = Some ([Ev_accept c; Ev_setsockopt c; Ev_setsockopt c; Ev_setsockopt c;
                     Ev_setsockopt c; Ev_recv c 0], raw)) as ->.
    { unfold server_pass. simpl. by rewrite (proj2 (Z.ltb_ge _ _)) by lia. }
    cbn [mbind option_bind fst snd]. rewrite Hrun. cbn [mbind option_bind].
    eexists. split; [done|]. intros open. simpl.
    rewrite (proj2 (Z.ltb_ge _ _)) by lia.
    by rewrite Hopen, <- app_assoc.
Qed.

Lemma silent_peers_accumulate_witness :
  ∃ trace,
    server_loop JSONText.parse JSONText.print SOCK_STREAM [7; 7; 7]
      (silent_peer <$> [54; 55; 56]) = Some trace
    ∧ open_connections trace [] = [54; 55; 56].
Proof.
  apply (silent_peers_accumulate JSONText.parse JSONText.print [7; 7; 7] [54; 55; 56]).
  repeat constructor; lia.
Defined.



(** X21. A pass of the datagram listener that received a datagram and ran
    to its end made exactly one [sendto], with the length that
    [tplink_kasa_process_buffer] returned, and touched no connection: it
    neither accepts nor sends on a stream nor closes. *)
Theorem datagram_pass_sends_once
    (parse : list Z → option cJSON) (print : cJSON → list Z)
    (raw : list Z) a data trace raw' :
  on_recvfrom a = Incoming data →
  server_pass parse print SOCK_DGRAM raw a = Some (trace, raw') →
  let rx := receive raw (buffer_len - 1) (Incoming data) in
  ∃ r, tplink_kasa_process_buffer parse print rx.2 rx.1 false = Some r
       ∧ trace = [Ev_recvfrom rx.1; Ev_process (reply_len r); Ev_sendto (reply_len r)]
       ∧ raw' = raw_after r.
Proof.
  intros Hrecv H rx. unfold server_pass in H. simpl in H. rewrite Hrecv in H.
  fold rx in H.
  assert (0 <= rx.1) as Hpos by (subst rx; unfold receive; simpl; lia).
  rewrite (proj2 (Z.ltb_ge _ _)) in H by done.
  unfold respond in H.
  destruct (tplink_kasa_process_buffer parse print rx.2 rx.1 false) as [r|]; [|done].
  simpl in H. injection H as <- <-. by exists r.
Qed.

Lemma datagram_pass_sends_once_witness :
  let a := {| on_recvfrom := Incoming [1; 2; 3]; on_accept := 0;
              on_recv := Incoming_error; on_sendto := 0; on_send := [] |} in
  let rx := receive (replicate 2000 0) (buffer_len - 1) (Incoming [1; 2; 3]) in
  ∃ r, tplink_kasa_process_buffer JSONText.parse JSONText.print rx.2 rx.1 false = Some r
       ∧ [Ev_recvfrom 3; Ev_process 0; Ev_sendto 0]
         = [Ev_recvfrom rx.1; Ev_process (reply_len r); Ev_sendto (reply_len r)]
       ∧ <[3%nat := 0]> ([1; 2; 3] ++ replicate 1997 0) = raw_after r.
Proof.
  intros a.
  apply (datagram_pass_sends_once JSONText.parse JSONText.print
           (replicate 2000 0) a [1; 2; 3]);
    [reflexivity | vm_compute; reflexivity].
Defined.

(** ** The task as a whole *)

(** X22. [server_task] releases what it acquired on every way out but
    one: once the socket exists the task ends with [free] of the receive
    buffer, [close] of the socket and [vTaskDelete], and frees nothing
    before; when [socket] fails it returns straight away, the buffer it
    allocated is never freed and the task is not deleted. *)
Theorem server_task_cleans_up_unless_socket_fails
    (parse : list Z → option cJSON) (print : cJSON → list Z)
    kind (raw : list Z) s script trace :
  server_task parse print kind raw s script = Some trace →
  (on_socket s < 0 → trace = [Task_malloc; Task_socket (on_socket s)])
  ∧ (0 <= on_socket s →
     ∃ before, trace = before ++ [Task_free; Task_close (on_socket s); Task_delete]
               ∧ (Task_free ∉ before) ∧ (Task_delete ∉ before)).
Proof.
  unfold server_task. intros H.
  destruct (on_socket s <? 0) eqn:Hsock.
  - apply Z.ltb_lt in Hsock. injection H as <-. split; [done|lia].
  - apply Z.ltb_ge in Hsock. split; [lia|]. intros _.
    assert (∀ (l : list task_event),
              Forall (λ e, e ≠ Task_free ∧ e ≠ Task_delete) l →
              (Task_free ∉ l) ∧ (Task_delete ∉ l)) as Hclean.
    { intros l Hl. rewrite Forall_forall in Hl.
      split; intros Hin; destruct (Hl _ Hin) as [? ?]; done. }
    assert (∀ l : list event,
              Forall (λ e, e ≠ Task_free ∧ e ≠ Task_delete) (Task_loop <$> l)) as Hloop.
    { intros l. apply Forall_fmap, Forall_forall. intros e _. by split. }
    destruct kind; simpl in H.
    + destruct (negb (on_bind s =? 0)).
      { injection H as <-.
        exists [Task_malloc; Task_socket (on_socket s); Task_setsockopt (on_socket s);
                Task_fcntl (on_socket s); Task_fcntl (on_socket s);
                Task_bind (on_socket s)].
        split; [done|]. apply Hclean. repeat constructor; done. }
      destruct (negb (on_listen s =? 0)).
      { injection H as <-.
        exists [Task_malloc; Task_socket (on_socket s); Task_setsockopt (on_socket s);
                Task_fcntl (on_socket s); Task_fcntl (on_socket s);
                Task_bind (on_socket s); Task_listen (on_socket s)].
        split; [done|]. apply Hclean. repeat constructor; done. }
      destruct (server_loop parse print SOCK_STREAM raw script) as [tr|]; [|done].
      simpl in H. injection H as <-.
      exists ([Task_malloc; Task_socket (on_socket s); Task_setsockopt (on_socket s);
               Task_fcntl (on_socket s); Task_fcntl (on_socket s);
               Task_bind (on_socket s); Task_listen (on_socket s)]
              ++ (Task_loop <$> tr)).
      split; [by rewrite <- app_assoc|].
      apply Hclean, Forall_app. split; [repeat constructor; done|apply Hloop].
    + destruct (negb (on_bind s =? 0)).
      { injection H as <-.
        exists [Task_malloc; Task_socket (on_socket s); Task_setsockopt (on_socket s);
                Task_setsockopt (on_socket s); Task_bind (on_socket s)].
        split; [done|]. apply Hclean. repeat constructor; done. }
      destruct (server_loop parse print SOCK_DGRAM raw script) as [tr|]; [|done].
      simpl in H. injection H as <-.
      exists ([Task_malloc; Task_socket (on_socket s); Task_setsockopt (on_socket s);
               Task_setsockopt (on_socket s); Task_bind (on_socket s)]
              ++ (Task_loop <$> tr)).
      split; [by rewrite <- app_assoc|].
      apply Hclean, Forall_app. split; [repeat constructor; done|apply Hloop].
Qed.

Lemma server_task_cleans_up_unless_socket_fails_witness :
  let trace := [Task_malloc; Task_socket 5; Task_setsockopt 5; Task_setsockopt 5;
                Task_bind 5; Task_free; Task_close 5; Task_delete] in
  (5 < 0 → trace = [Task_malloc; Task_socket 5])
  ∧ (0 <= 5 →
     ∃ before, trace = before ++ [Task_free; Task_close 5; Task_delete]
               ∧ (Task_free ∉ before) ∧ (Task_delete ∉ before)).
Proof.
  apply (server_task_cleans_up_unless_socket_fails JSONText.parse JSONText.print
           SOCK_DGRAM (replicate 2000 0)
           {| on_socket := 5; on_bind := -1; on_listen := 0 |} []).
  reflexivity.
Defined.
